(** * Logistics core of the delivery CRM: a shallow embedding of
    [crm/logistics.py] and of the model fields it reads and writes
    ([crm/models.py]), with the properties of the route optimizer, the road
    router, the delivery-time estimator and the logistics manager.

    Conventions of the embedding.
    - A Python [float] (and the [int]s mixed with them) is a rational [Q]:
      rounding, infinities and NaN are not modelled.  A [timedelta] is its
      length in minutes, a [datetime] a number of minutes.
    - [math.sin], [math.cos], [math.sqrt], [math.atan2] and [math.radians]
      have no rational model; they are the fields of a record [Math] that
      every definition takes as a section variable.
    - A nullable model field is an [option]; Python truthiness is written
      out ([None] and [0.0] are both false).
    - Code that raises returns a [result]; code that writes model rows
      threads the tables [DB] explicitly.
    - The outside world (settings, the routing and geocoding providers, the
      clock) is a record [Env] of answers. *)

From Stdlib Require Import List String Ascii Bool Arith ZArith QArith Qabs Qround.
From Stdlib Require Import Lia Lqa Permutation Sorted.
From Equations Require Import Equations.
Import ListNotations.

Open Scope string_scope.
Open Scope Q_scope.

(** ** Python values *)

(** Truthiness of a float: [0.0] is false. *)
Definition float_truthy (x : Q) : bool := negb (Qeq_bool x 0).

(** Truthiness of an [Optional[float]]: [None] and [0.0] are false. *)
Definition truthy (x : option Q) : bool :=
  match x with
  | Some q => float_truthy q
  | None => false
  end.

(** [x or y] on two optional floats. *)
Definition py_or (x y : option Q) : option Q := if truthy x then x else y.

(** [x or d] where [d] is a float. *)
Definition or_default (x : option Q) (d : Q) : Q :=
  match x with
  | Some q => if float_truthy q then q else d
  | None => d
  end.

(** Truthiness of a [str]: the empty string is false. *)
Definition str_truthy (s : string) : bool :=
  match s with
  | EmptyString => false
  | String _ _ => true
  end.

(** Exceptions the modelled code can meet. *)
Inductive exn : Type :=
| KeyError (key : string)
| IndexError
| TypeError
| ValueError
| RequestException
| HTTPError
| DoesNotExist.

Inductive result (A : Type) : Type :=
| Ok (a : A)
| Raise (e : exn).
Arguments Ok {A} a.
Arguments Raise {A} e.

Definition bind {A B : Type} (r : result A) (k : A -> result B) : result B :=
  match r with
  | Ok a => k a
  | Raise e => Raise e
  end.

(** [try: body except Exception: handler] for a body whose handler returns. *)
Definition try_except {A : Type} (body : result A) (handler : exn -> A) : A :=
  match body with
  | Ok a => a
  | Raise e => handler e
  end.

Declare Scope result_scope.
Delimit Scope result_scope with result.
Notation "x <- c ;; k" := (bind c (fun x => k))
  (at level 100, c at next level, right associativity) : result_scope.
Open Scope result_scope.

(** A value decoded by [response.json()]. *)
#[warnings="-register-all"]
Inductive json : Type :=
| JNull
| JBool (b : bool)
| JNum (q : Q)
| JStr (s : string)
| JArr (items : list json)
| JObj (members : list (string * json)).

(** [bool(v)]. *)
Definition json_truthy (v : json) : bool :=
  match v with
  | JNull => false
  | JBool b => b
  | JNum q => float_truthy q
  | JStr s => str_truthy s
  | JArr items => match items with [] => false | _ :: _ => true end
  | JObj members => match members with [] => false | _ :: _ => true end
  end.

Definition is_str (k : string) (v : json) : bool :=
  match v with
  | JStr s => String.eqb s k
  | _ => false
  end.

Fixpoint dict_get (k : string) (members : list (string * json)) : option json :=
  match members with
  | [] => None
  | (k', v) :: rest => if String.eqb k' k then Some v else dict_get k rest
  end.

(** [k in v] for a string [k]: key of a dict, element of a list, substring
    of a string; a [TypeError] on anything else. *)
Definition contains (k : string) (v : json) : result bool :=
  match v with
  | JObj members =>
      Ok (match dict_get k members with Some _ => true | None => false end)
  | JArr items => Ok (existsb (is_str k) items)
  | JStr s => Ok (match index 0 k s with Some _ => true | None => false end)
  | _ => Raise TypeError
  end.

(** [v[k]] for a string [k]. *)
Definition getitem (v : json) (k : string) : result json :=
  match v with
  | JObj members =>
      match dict_get k members with
      | Some x => Ok x
      | None => Raise (KeyError k)
      end
  | _ => Raise TypeError
  end.

(** [v[i]] for a non-negative integer [i]; the keys of a decoded dict are
    strings, so an integer is never one of them. *)
Definition getitem_int (v : json) (i : nat) : result json :=
  match v with
  | JArr items =>
      match nth_error items i with
      | Some x => Ok x
      | None => Raise IndexError
      end
  | JStr s =>
      match get i s with
      | Some c => Ok (JStr (String c EmptyString))
      | None => Raise IndexError
      end
  | JObj _ => Raise (KeyError "0")
  | _ => Raise TypeError
  end.

(** [v / d] for a number [d]. *)
Definition json_div (v : json) (d : Q) : result Q :=
  match v with
  | JNum q => Ok (q / d)
  | JBool b => Ok ((if b then 1 else 0) / d)
  | _ => Raise TypeError
  end.

(** The items a [for] loop over [v] visits. *)
Definition json_iter (v : json) : result (list json) :=
  match v with
  | JArr items => Ok items
  | JStr s => Ok (map (fun c => JStr (String c EmptyString)) (list_ascii_of_string s))
  | JObj members => Ok (map (fun kv => JStr (fst kv)) members)
  | _ => Raise TypeError
  end.

(** ** Model rows ([crm/models.py]), with the fields the core uses *)

Module Client.
Record t : Type := {
  latitude : option Q;
  longitude : option Q
}.
End Client.

Module Courier.
Record t : Type := {
  id : Z;
  name : string;
  available : bool;
  vehicle_type : string;
  current_latitude : option Q;
  current_longitude : option Q
}.
End Courier.

Module Order.
Record t : Type := {
  id : Z;
  client : Client.t;
  courier : option Courier.t;
  address : string;
  latitude : option Q;
  longitude : option Q;
  status : string;
  priority : string;
  created_at_date : Z;
  estimated_delivery_time : option Q
}.
End Order.

(** The serializable payload stored with a route. *)
Record RouteData : Type := {
  rd_coordinates : list (json * json);
  rd_total_distance : Q;
  rd_estimated_duration_minutes : Z;
  rd_order_count : nat;
  rd_created_at : Q;
  rd_courier_id : Z;
  rd_courier_name : string
}.

Module DeliveryRoute.
Record t : Type := {
  id : Z;
  courier : Courier.t;
  name : string;
  total_distance : Q;
  estimated_duration : Q;
  route_data : RouteData
}.
End DeliveryRoute.

Module RouteOrder.
Record t : Type := {
  route : Z;
  order : Order.t;
  sequence : nat
}.
End RouteOrder.

(** The tables. *)
Record DB : Type := {
  couriers : list Courier.t;
  orders : list Order.t;
  delivery_routes : list DeliveryRoute.t;
  route_orders : list RouteOrder.t
}.

(** ** The outside world *)

(** What [requests.get] / [requests.post] can come back with: no response at
    all, or a response with its status (2xx or not) and its body (decodable
    as JSON or not). *)
Inductive http_response : Type :=
| ConnectionFailed
| Response (status_ok : bool) (body : option json).

Record Env : Type := {
  (** [getattr(settings, 'EXTERNAL_ROUTING_ENABLED', True)], as a truth value *)
  EXTERNAL_ROUTING_ENABLED : bool;
  (** [getattr(settings, 'OPENROUTE_API_KEY', None)] *)
  OPENROUTE_API_KEY : option string;
  (** the answers of the primary provider to the request of
      [_get_openroute_summary] and to the request of [_get_openroute_route],
      by profile and [[lon, lat]] list *)
  openroute_summary_response : string -> list (Q * Q) -> http_response;
  openroute_route_response : string -> list (Q * Q) -> http_response;
  (** the answers of the secondary provider, by profile and [lon,lat] list *)
  osrm_summary_response : string -> list (Q * Q) -> http_response;
  osrm_route_response : string -> list (Q * Q) -> http_response;
  (** [GeoCoder.geocode_address]: a pair of floats, or [(None, None)] *)
  geocode_address : string -> option (Q * Q);
  (** [timezone.now()]: the instant, its [hour], [weekday()], [date()] and
      the [strftime('%Y%m%d_%H%M')] text *)
  now : Q;
  now_hour : Z;
  now_weekday : Z;
  today : Z;
  now_stamp : string
}.

(** [math] functions used by the Haversine formula. *)
Record Math : Type := {
  math_sin : Q -> Q;
  math_cos : Q -> Q;
  math_sqrt : Q -> Q;
  math_atan2 : Q -> Q -> Q;
  math_radians : Q -> Q
}.

(** What the formula needs of them for a distance not to be negative. *)
Definition math_sound (m : Math) : Prop :=
  (forall x, 0 <= math_sqrt m x) /\
  (forall y x, 0 <= y -> 0 <= x -> 0 <= math_atan2 m y x).

(** ** A rational stand-in for [math], to run the model on sample rows

    Small angles: [sin x] is [x] and [atan2 y x] is [y]; [cos] is its Taylor
    polynomial of degree four; [sqrt] is cut to six decimals and exact on
    the squares of rationals; pi has fifteen decimals.  With it a degree of
    latitude is 111.19 km. *)

Definition sqrt_6 (x : Q) : Q :=
  if Qle_bool x 0 then 0
  else Z.sqrt (Qnum x * Zpos (Qden x) * 1000000000000) # (Qden x * 1000000).

Definition flat_math : Math :=
  {| math_sin := fun x => x;
     math_cos := fun x => 1 - x * x / 2 + x * x * x * x / 24;
     math_sqrt := sqrt_6;
     math_atan2 := fun y _ => y;
     math_radians := fun x => x * 3.141592653589793 / 180 |}.

(** The world with external routing switched off, no credential, no
    provider reachable, on a Monday at 08:00. *)
Definition offline_env : Env :=
  {| EXTERNAL_ROUTING_ENABLED := false;
     OPENROUTE_API_KEY := None;
     openroute_summary_response := fun _ _ => ConnectionFailed;
     openroute_route_response := fun _ _ => ConnectionFailed;
     osrm_summary_response := fun _ _ => ConnectionFailed;
     osrm_route_response := fun _ _ => ConnectionFailed;
     geocode_address := fun _ => None;
     now := 0;
     now_hour := 8;
     now_weekday := 0;
     today := 0;
     now_stamp := "20240101_0800" |}.

Definition sample_client : Client.t :=
  {| Client.latitude := Some 50.4501; Client.longitude := Some 30.5234 |}.

Definition sample_courier : Courier.t :=
  {| Courier.id := 1; Courier.name := "Test Courier"; Courier.available := true;
     Courier.vehicle_type := "car";
     Courier.current_latitude := Some 50.4501;
     Courier.current_longitude := Some 30.5234 |}.

(** An order of [sample_client] delivered at [(lat, lon)]. *)
Definition order_at (id : Z) (lat lon : Q) (priority : string) : Order.t :=
  {| Order.id := id; Order.client := sample_client; Order.courier := None;
     Order.address := "Test Address, Kyiv";
     Order.latitude := Some lat; Order.longitude := Some lon;
     Order.status := "new"; Order.priority := priority;
     Order.created_at_date := 0; Order.estimated_delivery_time := None |}.


Definition osrm_body (meters seconds : Q) : json :=
  JObj [("routes",
         JArr [JObj [("distance", JNum meters); ("duration", JNum seconds)]])].


(** No credential is set and the secondary provider answers every request
    for metrics with 1.5 km and 2 minutes. *)
Definition osrm_answering_env : Env :=
  {| EXTERNAL_ROUTING_ENABLED := true;
     OPENROUTE_API_KEY := None;
     openroute_summary_response := fun _ _ => ConnectionFailed;
     openroute_route_response := fun _ _ => ConnectionFailed;
     osrm_summary_response :=
       fun _ _ => Response true (Some (osrm_body 1500 120));
     osrm_route_response := fun _ _ => ConnectionFailed;
     geocode_address := fun _ => None;
     now := 0;
     now_hour := 8;
     now_weekday := 0;
     today := 0;
     now_stamp := "20240101_0800" |}.

(** Routing is enabled, no credential is set and no provider answers. *)
Definition osrm_down_env : Env :=
  {| EXTERNAL_ROUTING_ENABLED := true;
     OPENROUTE_API_KEY := None;
     openroute_summary_response := fun _ _ => ConnectionFailed;
     openroute_route_response := fun _ _ => ConnectionFailed;
     osrm_summary_response := fun _ _ => ConnectionFailed;
     osrm_route_response := fun _ _ => ConnectionFailed;
     geocode_address := fun _ => None;
     now := 0;
     now_hour := 8;
     now_weekday := 0;
     today := 0;
     now_stamp := "20240101_0800" |}.

(** Two waypoints a hundredth of a degree of latitude apart, about 1.1 km. *)
Definition two_waypoints : list (Q * Q) :=
  [(50.4501, 30.5234); (50.4601, 30.5234)].

Definition one_waypoint : list (Q * Q) := [(50.4501, 30.5234)].

(** A courier on the equator: both coordinates are present, the latitude
    is [0.0]. *)
Definition equator_courier : Courier.t :=
  {| Courier.id := 2; Courier.name := "Equator Courier"; Courier.available := true;
     Courier.vehicle_type := "car";
     Courier.current_latitude := Some 0;
     Courier.current_longitude := Some 30 |}.

(** The tables with the two couriers and nothing else. *)
Definition two_couriers_db : DB :=
  {| couriers := [sample_courier; equator_courier];
     orders := [];
     delivery_routes := [];
     route_orders := [] |}.

(** An urgent order exactly 10 km north of [sample_courier] under
    [flat_math]. *)
Definition ten_km_order : Order.t :=
  order_at 1 (50.4501 + 1800 / (6371 * 3.141592653589793)) 30.5234 "urgent".

(** One available courier and one new order of day 0. *)
Definition one_order_db : DB :=
  {| couriers := [sample_courier];
     orders := [order_at 1 50.4601 30.5234 "normal"];
     delivery_routes := [];
     route_orders := [] |}.

(** A courier that is no longer available. *)
Definition unavailable_courier : Courier.t :=
  {| Courier.id := 3; Courier.name := "Former Courier"; Courier.available := false;
     Courier.vehicle_type := "bike";
     Courier.current_latitude := Some 50.4; Courier.current_longitude := Some 30.6 |}.

(** An order of day 0 assigned to [unavailable_courier]. *)
Definition stale_order : Order.t :=
  {| Order.id := 2; Order.client := sample_client;
     Order.courier := Some unavailable_courier;
     Order.address := "Test Address, Kyiv";
     Order.latitude := Some 50.44; Order.longitude := Some 30.51;
     Order.status := "assigned"; Order.priority := "high";
     Order.created_at_date := 0; Order.estimated_delivery_time := Some 45 |}.

(** One available and one unavailable courier, a new order and the order
    assigned to the unavailable courier. *)
Definition stale_db : DB :=
  {| couriers := [sample_courier; unavailable_courier];
     orders := [order_at 1 50.4601 30.5234 "normal"; stale_order];
     delivery_routes := [];
     route_orders := [] |}.

(** ** [GPSTracker]: positions and their history

    [Courier.last_location_update] is read by nothing else in the core; a
    tracked courier is the courier row with that column. *)

Module CourierLocation.
Record t : Type := {
  courier : Z;
  latitude : Q;
  longitude : Q;
  accuracy : option Q;
  speed : option Q;
  bearing : option Q;
  timestamp : Q
}.
End CourierLocation.

Module TrackedCourier.
Record t : Type := {
  row : Courier.t;
  last_location_update : option Q
}.
End TrackedCourier.

(** The courier table with the update column, and the history table. *)
Record GPS : Type := {
  tracked : list TrackedCourier.t;
  location_history : list CourierLocation.t
}.

(** [courier.current_latitude = latitude; courier.current_longitude =
    longitude]. *)
Definition set_position (latitude longitude : Q) (c : Courier.t) : Courier.t :=
  {| Courier.id := Courier.id c; Courier.name := Courier.name c;
     Courier.available := Courier.available c;
     Courier.vehicle_type := Courier.vehicle_type c;
     Courier.current_latitude := Some latitude;
     Courier.current_longitude := Some longitude |}.

(** [GPSTracker.update_courier_location]: the truth value returned and the
    tables after the call.  The two readings of the clock in the call, for
    [last_location_update] and for the history row's default [timestamp],
    are the one instant [now env]; the database accepts the writes. *)
Definition update_courier_location (env : Env) (courier_id : Z)
    (latitude longitude : Q) (accuracy speed bearing : option Q) (s : GPS)
  : bool * GPS :=
  match find (fun c => (Courier.id (TrackedCourier.row c) =? courier_id)%Z)
             (tracked s) with
  | None => (false, s)
  | Some courier =>
      let courier' :=
        {| TrackedCourier.row :=
             set_position latitude longitude (TrackedCourier.row courier);
           TrackedCourier.last_location_update := Some (now env) |} in
      (true,
       {| tracked :=
            map (fun r =>
                   if (Courier.id (TrackedCourier.row r)
                       =? Courier.id (TrackedCourier.row courier'))%Z
                   then courier' else r)
                (tracked s);
          location_history :=
            (location_history s ++
             [{| CourierLocation.courier := Courier.id (TrackedCourier.row courier');
                 CourierLocation.latitude := latitude;
                 CourierLocation.longitude := longitude;
                 CourierLocation.accuracy := accuracy;
                 CourierLocation.speed := speed;
                 CourierLocation.bearing := bearing;
                 CourierLocation.timestamp := now env |}])%list |})
  end.







(** [Courier.is_location_fresh] at the instant [t]; [timedelta(minutes=5)]
    is 5. *)
Definition is_location_fresh (c : TrackedCourier.t) (t : Q) : bool :=
  match TrackedCourier.last_location_update c with
  | None => false
  | Some updated => negb (Qle_bool 5 (t - updated))
  end.






(** No courier is available: the only courier is not, and an order of day
    0 is assigned to that courier. *)
Definition no_courier_db : DB :=
  {| couriers := [unavailable_courier];
     orders := [stale_order];
     delivery_routes := [];
     route_orders := [] |}.

(** The tracker's tables with [sample_courier], never located so far. *)
Definition sample_gps : GPS :=
  {| tracked :=
       [{| TrackedCourier.row := sample_courier;
           TrackedCourier.last_location_update := None |}];
     location_history := [] |}.

(** ** [GPSTracker.calculate_distance] and [RouteService] *)

Section Logistics.

Variable math : Math.

(** Haversine great-circle distance in kilometres. *)
Definition calculate_distance (lat1 lon1 lat2 lon2 : Q) : Q :=
  let R := 6371 in
  let lat1_rad := math_radians math lat1 in
  let lat2_rad := math_radians math lat2 in
  let delta_lat := math_radians math (lat2 - lat1) in
  let delta_lon := math_radians math (lon2 - lon1) in
  let a := (math_sin math (delta_lat / 2)) ^ 2 +
           math_cos math lat1_rad * math_cos math lat2_rad *
           (math_sin math (delta_lon / 2)) ^ 2 in
  let c := 2 * math_atan2 math (math_sqrt math a) (math_sqrt math (1 - a)) in
  R * c.

(** The result dict of the road router. *)
Record summary : Type := {
  distance : Q;
  duration : Q;
  coordinates : list (json * json)
}.

(** A list of [(lat, lon)] float tuples seen as a list of pairs of values. *)
Definition as_points (waypoints : list (Q * Q)) : list (json * json) :=
  map (fun p => (JNum (fst p), JNum (snd p))) waypoints.

(** [[lon, lat] for lat, lon in waypoints]. *)
Definition lon_lat (waypoints : list (Q * Q)) : list (Q * Q) :=
  map (fun p => (snd p, fst p)) waypoints.

Definition osrm_profile_map : list (string * string) :=
  [("driving-car", "driving"); ("driving-hgv", "driving");
   ("cycling-regular", "cycling"); ("foot-walking", "walking")].

Fixpoint lookup {V : Type} (k : string) (table : list (string * V)) (default : V) : V :=
  match table with
  | [] => default
  | (k', v) :: rest => if String.eqb k' k then v else lookup k rest default
  end.

Definition _translate_profile_for_osrm (profile : string) : string :=
  lookup profile osrm_profile_map "driving".

(** [requests.get(...)] or [requests.post(...)], [raise_for_status()] and
    [response.json()]. *)
Definition fetch_json (r : http_response) : result json :=
  match r with
  | ConnectionFailed => Raise RequestException
  | Response false _ => Raise HTTPError
  | Response true None => Raise ValueError
  | Response true (Some data) => Ok data
  end.

(** [[(coord[1], coord[0]) for coord in items]]. *)
Fixpoint swap_pairs (items : list json) : result (list (json * json)) :=
  match items with
  | [] => Ok []
  | coord :: rest =>
      a <- getitem_int coord 1 ;;
      b <- getitem_int coord 0 ;;
      others <- swap_pairs rest ;;
      Ok ((a, b) :: others)
  end.

(** The part of [_get_openroute_route] and [_get_osrm_route] that follows
    [data = response.json()]; the two differ in the key, ['features'] or
    ['routes']. *)
Definition route_of_response (key : string) (data : json)
    (waypoints : list (Q * Q)) : result (list (json * json)) :=
  has_key <- contains key data ;;
  found <- (if has_key then
              v <- getitem data key ;; Ok (json_truthy v)
            else Ok false) ;;
  if (found : bool) then
    routes <- getitem data key ;;
    first <- getitem_int routes 0 ;;
    geometry <- getitem first "geometry" ;;
    type <- getitem geometry "type" ;;
    if is_str "LineString" type then
      coords <- getitem geometry "coordinates" ;;
      items <- json_iter coords ;;
      swap_pairs items
    else Ok (as_points waypoints)
  else Ok (as_points waypoints).

Definition _get_openroute_route (env : Env) (waypoints : list (Q * Q))
    (profile : string) : list (json * json) :=
  try_except
    (let coordinates := lon_lat waypoints in
     data <- fetch_json (openroute_route_response env profile coordinates) ;;
     route_of_response "features" data waypoints)
    (fun _ => as_points waypoints).

Definition _get_osrm_route (env : Env) (waypoints : list (Q * Q))
    (profile : string) : list (json * json) :=
  try_except
    (let osrm_profile := _translate_profile_for_osrm profile in
     data <- fetch_json (osrm_route_response env osrm_profile (lon_lat waypoints)) ;;
     route_of_response "routes" data waypoints)
    (fun _ => as_points waypoints).

(** Truthiness of [self.api_key]. *)
Definition api_key_set (env : Env) : bool :=
  match OPENROUTE_API_KEY env with
  | Some key => str_truthy key
  | None => false
  end.

Definition get_route_coordinates (env : Env) (waypoints : list (Q * Q))
    (profile : string) : list (json * json) :=
  if (List.length waypoints <? 2)%nat then as_points waypoints
  else
    try_except
      (if negb (EXTERNAL_ROUTING_ENABLED env) then Ok (as_points waypoints)
       else if api_key_set env then Ok (_get_openroute_route env waypoints profile)
       else Ok (_get_osrm_route env waypoints profile))
      (fun _ => as_points waypoints).

(** [(waypoints[i], waypoints[i + 1]) for i in range(len(waypoints) - 1)]. *)
Definition legs (waypoints : list (Q * Q)) : list ((Q * Q) * (Q * Q)) :=
  combine waypoints (tl waypoints).

Definition leg_distance (leg : (Q * Q) * (Q * Q)) : Q :=
  calculate_distance (fst (fst leg)) (snd (fst leg)) (fst (snd leg)) (snd (snd leg)).

Definition _calculate_straight_line_summary (waypoints : list (Q * Q)) : summary :=
  let total_distance :=
    fold_left (fun acc leg => acc + leg_distance leg) (legs waypoints) 0 in
  let estimated_time := (total_distance / 25) * 60 in
  {| distance := total_distance;
     duration := estimated_time;
     coordinates := as_points waypoints |}.

(** The part of [_get_openroute_summary] and [_get_osrm_summary] that
    follows [data = response.json()]: [key] is ['features'] or ['routes'],
    [entry] reaches the dict that holds ['distance'] and ['duration'], and
    [geometry] is the second request, made before the two divisions. *)
Definition summary_of_response (key : string) (entry : json -> result json)
    (geometry : list (json * json)) (data : json)
    (waypoints : list (Q * Q)) : result summary :=
  has_key <- contains key data ;;
  found <- (if has_key then
              v <- getitem data key ;; Ok (json_truthy v)
            else Ok false) ;;
  if (found : bool) then
    routes <- getitem data key ;;
    first <- getitem_int routes 0 ;;
    route <- entry first ;;
    let coordinates := geometry in
    d <- getitem route "distance" ;;
    km <- json_div d 1000 ;;
    t <- getitem route "duration" ;;
    minutes <- json_div t 60 ;;
    Ok {| distance := km; duration := minutes; coordinates := coordinates |}
  else Ok (_calculate_straight_line_summary waypoints).

Definition _get_openroute_summary (env : Env) (waypoints : list (Q * Q))
    (profile : string) : summary :=
  try_except
    (let coordinates := lon_lat waypoints in
     data <- fetch_json (openroute_summary_response env profile coordinates) ;;
     summary_of_response "features"
       (fun first => properties <- getitem first "properties" ;;
                     getitem properties "summary")
       (_get_openroute_route env waypoints profile) data waypoints)
    (fun _ => _calculate_straight_line_summary waypoints).

Definition _get_osrm_summary (env : Env) (waypoints : list (Q * Q))
    (profile : string) : summary :=
  try_except
    (let osrm_profile := _translate_profile_for_osrm profile in
     data <- fetch_json (osrm_summary_response env osrm_profile (lon_lat waypoints)) ;;
     summary_of_response "routes" (fun first => Ok first)
       (_get_osrm_route env waypoints profile) data waypoints)
    (fun _ => _calculate_straight_line_summary waypoints).

Definition get_route_summary (env : Env) (waypoints : list (Q * Q))
    (profile : string) : summary :=
  try_except
    (if negb (EXTERNAL_ROUTING_ENABLED env) then
       Ok (_calculate_straight_line_summary waypoints)
     else if api_key_set env then Ok (_get_openroute_summary env waypoints profile)
     else Ok (_get_osrm_summary env waypoints profile))
    (fun _ => _calculate_straight_line_summary waypoints).


(** The path of the second request, the one for the geometry. *)
Definition geometry_request_path (env : Env) (waypoints : list (Q * Q))
    (profile : string) : list (json * json) :=
  if api_key_set env then _get_openroute_route env waypoints profile
  else _get_osrm_route env waypoints profile.




(** ** [RouteOptimizer] *)

(** [x < y] on floats. *)
Definition Qltb (x y : Q) : bool := negb (Qle_bool y x).

(** [min(items, key=key)] on the non-empty list [first :: rest]: the items
    are scanned from the left and the running minimum is replaced only by an
    item whose key is strictly smaller. *)
Definition py_min (key : nat -> Q) (first : nat) (rest : list nat) : nat :=
  fold_left (fun best item => if Qltb (key item) (key best) then item else best)
    rest first.

(** [items.remove(x)]: drops the first occurrence of [x]. *)
Fixpoint remove_first (x : nat) (items : list nat) : list nat :=
  match items with
  | [] => []
  | y :: rest => if Nat.eqb y x then rest else y :: remove_first x rest
  end.

(** [locations[idx]]; every index the optimizer uses is in range (lemma
    [tour_in_range] below), so the default is never returned. *)
Definition location_at (locations : list (Q * Q)) (idx : nat) : Q * Q :=
  nth idx locations (0, 0).

(** The key of the [min] in the loop: the distance from the current position
    to [locations[idx]]. *)
Definition hop (locations : list (Q * Q)) (current_idx idx : nat) : Q :=
  calculate_distance
    (fst (location_at locations current_idx)) (snd (location_at locations current_idx))
    (fst (location_at locations idx)) (snd (location_at locations idx)).

(** The [while unvisited:] loop. *)
Equations? nearest_neighbor (locations : list (Q * Q)) (route unvisited : list nat)
  : list nat by wf (List.length unvisited) lt :=
  nearest_neighbor locations route [] := route;
  nearest_neighbor locations route (u :: us) :=
    nearest_neighbor locations
      (route ++ [py_min (hop locations (last route 0%nat)) u us])
      (remove_first (py_min (hop locations (last route 0%nat)) u us) (u :: us)).
Proof.
  assert (Hmin : forall key first rest, In (py_min key first rest) (first :: rest)).
  { intros key first rest. unfold py_min. revert first.
    induction rest as [|item rest IH]; intros first; simpl.
    - left; reflexivity.
    - destruct (Qltb (key item) (key first)).
      + destruct (IH item) as [H | H]; [right; left; exact H | right; right; exact H].
      + destruct (IH first) as [H | H]; [left; exact H | right; right; exact H]. }
  assert (Hremove : forall x items,
             In x items -> S (List.length (remove_first x items)) = List.length items).
  { intros x items. induction items as [|y rest IH]; simpl; intros H.
    - contradiction.
    - destruct (Nat.eqb_spec y x) as [E | E].
      + reflexivity.
      + simpl. f_equal. apply IH. destruct H as [H | H]; [congruence | exact H]. }
  pose proof (Hremove _ _ (Hmin (hop locations (last route 0%nat)) u us)) as H.
  simpl in H. lia.
Qed.

Record route_entry : Type := {
  order : Order.t;
  sequence : nat;
  location : Q * Q
}.

(** The dict [optimize_route] returns; the empty-list result has no
    ['route_coordinates'] key. *)
Record optimization_result : Type := {
  route : list route_entry;
  total_distance : Q;
  estimated_duration : Q;
  route_coordinates : option (list (json * json))
}.

Definition profile_map : list (string * string) :=
  [("car", "driving-car"); ("van", "driving-hgv"); ("motorcycle", "driving-car");
   ("bike", "cycling-regular"); ("bicycle", "cycling-regular");
   ("foot", "foot-walking")].

(** [(start_lat, start_lon)]. *)
Definition start_location (courier : Courier.t) : Q * Q :=
  (or_default (Courier.current_latitude courier) 50.4501,
   or_default (Courier.current_longitude courier) 30.5234).

(** [(lat, lon)] of one order in the loop that fills [locations]. *)
Definition order_location (start : Q * Q) (o : Order.t) : Q * Q :=
  (or_default (py_or (Order.latitude o) (Client.latitude (Order.client o))) (fst start),
   or_default (py_or (Order.longitude o) (Client.longitude (Order.client o))) (snd start)).

Definition build_locations (courier : Courier.t) (orders : list Order.t) : list (Q * Q) :=
  start_location courier :: map (order_location (start_location courier)) orders.

(** The tour: indices into [locations], starting with [0]. *)
Definition tour (courier : Courier.t) (orders : list Order.t) : list nat :=
  let locations := build_locations courier orders in
  nearest_neighbor locations [0%nat] (seq 1 (List.length locations - 1)).

Definition optimize_route (env : Env) (courier : Courier.t)
    (orders : list Order.t) : optimization_result :=
  match orders with
  | [] =>
      {| route := []; total_distance := 0; estimated_duration := 0;
         route_coordinates := None |}
  | first_order :: _ =>
      let locations := build_locations courier orders in
      let route := tour courier orders in
      let profile := lookup (Courier.vehicle_type courier) profile_map "driving-car" in
      let route_summary :=
        get_route_summary env (map (location_at locations) route) profile in
      let travel_time := duration route_summary in
      let service_time := inject_Z (Z.of_nat (List.length orders)) * 15 in
      let total_duration_minutes := travel_time + service_time in
      let estimated_duration := total_duration_minutes in
      let optimized_orders :=
        map (fun entry =>
               {| order := nth (snd entry - 1) orders first_order;
                  sequence := fst entry;
                  location := location_at locations (snd entry) |})
            (combine (seq 1 (List.length (tl route))) (tl route)) in
      {| route := optimized_orders;
         total_distance := distance route_summary;
         estimated_duration := estimated_duration;
         route_coordinates := Some (coordinates route_summary) |}
  end.

(** [int(x)]: truncation towards zero. *)
Definition py_int (x : Q) : Z := Z.quot (Qnum x) (Zpos (Qden x)).

(** The primary key the database gives a new row. *)
Definition next_id (ids : list Z) : Z := (1 + fold_right Z.max 0 ids)%Z.

Definition insert_route (r : DeliveryRoute.t) (db : DB) : DB :=
  {| couriers := couriers db; orders := orders db;
     delivery_routes := delivery_routes db ++ [r];
     route_orders := route_orders db |}.

Definition insert_route_order (ro : RouteOrder.t) (db : DB) : DB :=
  {| couriers := couriers db; orders := orders db;
     delivery_routes := delivery_routes db;
     route_orders := route_orders db ++ [ro] |}.

(** The row of [RouteOrder.objects.create(route=route,
    order=route_order['order'], sequence=route_order['sequence'])]. *)
Definition new_route_order (route_id : Z) (route_order : route_entry) : RouteOrder.t :=
  {| RouteOrder.route := route_id;
     RouteOrder.order := order route_order;
     RouteOrder.sequence := sequence route_order |}.

Definition create_delivery_route (env : Env) (courier : Courier.t)
    (orders : list Order.t) (name : option string) (db : DB)
  : result DeliveryRoute.t * DB :=
  let optimization_result := optimize_route env courier orders in
  let name :=
    match name with
    | Some n => if str_truthy n then n
                else "Route " ++ now_stamp env ++ " - " ++ Courier.name courier
    | None => "Route " ++ now_stamp env ++ " - " ++ Courier.name courier
    end in
  match route_coordinates optimization_result with
  | None => (Raise (KeyError "route_coordinates"), db)
  | Some route_coordinates =>
      let serializable_route_data :=
        {| rd_coordinates := route_coordinates;
           rd_total_distance := total_distance optimization_result;
           rd_estimated_duration_minutes :=
             py_int (estimated_duration optimization_result * 60 / 60);
           rd_order_count := List.length (route optimization_result);
           rd_created_at := now env;
           rd_courier_id := Courier.id courier;
           rd_courier_name := Courier.name courier |} in
      let new_route :=
        {| DeliveryRoute.id := next_id (map DeliveryRoute.id (delivery_routes db));
           DeliveryRoute.courier := courier;
           DeliveryRoute.name := name;
           DeliveryRoute.total_distance := total_distance optimization_result;
           DeliveryRoute.estimated_duration := estimated_duration optimization_result;
           DeliveryRoute.route_data := serializable_route_data |} in
      let db1 := insert_route new_route db in
      let db2 :=
        fold_left
          (fun db route_order =>
             insert_route_order
               (new_route_order (DeliveryRoute.id new_route) route_order) db)
          (route optimization_result) db1 in
      (Ok new_route, db2)
  end.

(** ** [DeliveryTimeCalculator] *)

(** [self.base_preparation_time], in minutes. *)
Definition base_preparation_time : Q := 30.

Definition vehicle_speeds : list (string * Q) :=
  [("bike", 15); ("motorcycle", 35); ("car", 40); ("van", 35)].

Definition priority_factors : list (string * Q) :=
  [("low", 1.0); ("normal", 1.0); ("high", 0.8); ("urgent", 0.6)].

Definition _get_traffic_factor (latitude longitude : Q) (hour day_of_week : Z) : Q :=
  if (day_of_week <? 5)%Z then
    if ((7 <=? hour)%Z && (hour <=? 9)%Z) || ((17 <=? hour)%Z && (hour <=? 19)%Z)
    then 1.5
    else if (10 <=? hour)%Z && (hour <=? 16)%Z then 1.2
    else 1.0
  else
    if (12 <=? hour)%Z && (hour <=? 18)%Z then 1.3
    else 1.0.

(** The great-circle distance the estimator works with. *)
Definition delivery_distance (o : Order.t) (courier : Courier.t) : Q :=
  let courier_lat := or_default (Courier.current_latitude courier) 50.4501 in
  let courier_lon := or_default (Courier.current_longitude courier) 30.5234 in
  let order_lat :=
    or_default (py_or (Order.latitude o) (Client.latitude (Order.client o))) courier_lat in
  let order_lon :=
    or_default (py_or (Order.longitude o) (Client.longitude (Order.client o))) courier_lon in
  calculate_distance courier_lat courier_lon order_lat order_lon.

(** The result is a [timedelta], in minutes. *)
Definition calculate_delivery_time (env : Env) (o : Order.t)
    (courier : option Courier.t) : Q :=
  let courier :=
    match courier with
    | Some c => Some c
    | None => Order.courier o
    end in
  match courier with
  | None => base_preparation_time + 60
  | Some courier =>
      let hour := now_hour env in
      let day_of_week := now_weekday env in
      let courier_lat := or_default (Courier.current_latitude courier) 50.4501 in
      let courier_lon := or_default (Courier.current_longitude courier) 30.5234 in
      let order_lat :=
        or_default (py_or (Order.latitude o) (Client.latitude (Order.client o)))
          courier_lat in
      let order_lon :=
        or_default (py_or (Order.longitude o) (Client.longitude (Order.client o)))
          courier_lon in
      let distance := calculate_distance courier_lat courier_lon order_lat order_lon in
      let vehicle_speed := lookup (Courier.vehicle_type courier) vehicle_speeds 25 in
      let base_travel_time := (distance / vehicle_speed) * 60 in
      let traffic_factor := _get_traffic_factor order_lat order_lon hour day_of_week in
      let adjusted_travel_time := base_travel_time * traffic_factor in
      let priority_factor := lookup (Order.priority o) priority_factors 1.0 in
      let final_travel_time := adjusted_travel_time * priority_factor in
      base_preparation_time + final_travel_time
  end.

(** Attribute assignments on an order object. *)
Definition set_courier (c : option Courier.t) (o : Order.t) : Order.t :=
  {| Order.id := Order.id o; Order.client := Order.client o; Order.courier := c;
     Order.address := Order.address o; Order.latitude := Order.latitude o;
     Order.longitude := Order.longitude o; Order.status := Order.status o;
     Order.priority := Order.priority o;
     Order.created_at_date := Order.created_at_date o;
     Order.estimated_delivery_time := Order.estimated_delivery_time o |}.

Definition set_status (st : string) (o : Order.t) : Order.t :=
  {| Order.id := Order.id o; Order.client := Order.client o;
     Order.courier := Order.courier o;
     Order.address := Order.address o; Order.latitude := Order.latitude o;
     Order.longitude := Order.longitude o; Order.status := st;
     Order.priority := Order.priority o;
     Order.created_at_date := Order.created_at_date o;
     Order.estimated_delivery_time := Order.estimated_delivery_time o |}.

Definition set_estimated_delivery_time (t : option Q) (o : Order.t) : Order.t :=
  {| Order.id := Order.id o; Order.client := Order.client o;
     Order.courier := Order.courier o;
     Order.address := Order.address o; Order.latitude := Order.latitude o;
     Order.longitude := Order.longitude o; Order.status := Order.status o;
     Order.priority := Order.priority o;
     Order.created_at_date := Order.created_at_date o;
     Order.estimated_delivery_time := t |}.

Definition set_coordinates (lat lon : option Q) (o : Order.t) : Order.t :=
  {| Order.id := Order.id o; Order.client := Order.client o;
     Order.courier := Order.courier o;
     Order.address := Order.address o; Order.latitude := lat;
     Order.longitude := lon; Order.status := Order.status o;
     Order.priority := Order.priority o;
     Order.created_at_date := Order.created_at_date o;
     Order.estimated_delivery_time := Order.estimated_delivery_time o |}.

(** [order.save()] for an order that has a row: the row with its primary
    key is overwritten. *)
Definition save_order (o : Order.t) (db : DB) : DB :=
  {| couriers := couriers db;
     orders := map (fun row => if (Order.id row =? Order.id o)%Z then o else row)
                   (orders db);
     delivery_routes := delivery_routes db;
     route_orders := route_orders db |}.

(** Returns the order object as the call leaves it, and the tables. *)
Definition update_delivery_estimates (env : Env) (o : Order.t) (db : DB)
  : Order.t * DB :=
  match Order.courier o with
  | Some _ =>
      let estimated_time := calculate_delivery_time env o None in
      let o' := set_estimated_delivery_time (Some (now env + estimated_time)) o in
      (o', save_order o' db)
  | None => (o, db)
  end.

(** ** [LogisticsManager] *)

(** [queryset.first()] on a queryset without ordering: the row of least
    primary key. *)
Definition queryset_first (rows : list Courier.t) : option Courier.t :=
  match rows with
  | [] => None
  | c :: rest =>
      Some (fold_left
              (fun best x => if (Courier.id x <? Courier.id best)%Z then x else best)
              rest c)
  end.

(** [if courier.current_latitude and courier.current_longitude]. *)
Definition has_position (c : Courier.t) : bool :=
  truthy (Courier.current_latitude c) && truthy (Courier.current_longitude c).

(** The distance the loop computes for a courier that passed the test. *)
Definition courier_distance (order_lat order_lon : Q) (c : Courier.t) : Q :=
  calculate_distance
    (or_default (Courier.current_latitude c) 0) (or_default (Courier.current_longitude c) 0)
    order_lat order_lon.

(** The [for courier in available_couriers:] loop; [min_distance] is [None]
    while it is [float('inf')]. *)
Fixpoint nearest_courier (order_lat order_lon : Q) (rows : list Courier.t)
    (best_courier : option Courier.t) (min_distance : option Q) : option Courier.t :=
  match rows with
  | [] => best_courier
  | courier :: rest =>
      if has_position courier then
        let distance := courier_distance order_lat order_lon courier in
        if match min_distance with
           | None => true
           | Some m => Qltb distance m
           end
        then nearest_courier order_lat order_lon rest (Some courier) (Some distance)
        else nearest_courier order_lat order_lon rest best_courier min_distance
      else nearest_courier order_lat order_lon rest best_courier min_distance
  end.

(** Returns the courier, the order object as the call leaves it, and the
    tables. *)
Definition assign_optimal_courier (env : Env) (o : Order.t) (db : DB)
  : option Courier.t * Order.t * DB :=
  let available_couriers := filter Courier.available (couriers db) in
  match available_couriers with
  | [] => (None, o, db)
  | _ :: _ =>
      let order_lat := py_or (Order.latitude o) (Client.latitude (Order.client o)) in
      let order_lon := py_or (Order.longitude o) (Client.longitude (Order.client o)) in
      let '(order_lat, order_lon, o, db) :=
        if negb (truthy order_lat) || negb (truthy order_lon) then
          match geocode_address env (Order.address o) with
          | Some (lat, lon) =>
              if float_truthy lat && float_truthy lon then
                let o' := set_coordinates (Some lat) (Some lon) o in
                (Some lat, Some lon, o', save_order o' db)
              else (Some lat, Some lon, o, db)
          | None => (None, None, o, db)
          end
        else (order_lat, order_lon, o, db) in
      match order_lat, order_lon with
      | Some lat, Some lon =>
          if negb (float_truthy lat) || negb (float_truthy lon) then
            (queryset_first available_couriers, o, db)
          else
            match nearest_courier lat lon available_couriers None None with
            | Some best_courier => (Some best_courier, o, db)
            | None => (queryset_first available_couriers, o, db)
            end
      | _, _ => (queryset_first available_couriers, o, db)
      end
  end.

(** [grouped[courier_id].append(order)], after creating the empty list when
    the key is new; the dict keeps its keys in insertion order. *)
Fixpoint group_add (grouped : list (Z * list Order.t)) (courier_id : Z)
    (o : Order.t) : list (Z * list Order.t) :=
  match grouped with
  | [] => [(courier_id, [o])]
  | (k, os) :: rest =>
      if (k =? courier_id)%Z then (k, (os ++ [o])%list) :: rest
      else (k, os) :: group_add rest courier_id o
  end.

(** The loop of [_group_orders_for_routing], from the dict built so far. *)
Fixpoint group_loop (env : Env) (pending : list Order.t)
    (grouped : list (Z * list Order.t)) (db : DB)
  : list (Z * list Order.t) * DB :=
  match pending with
  | [] => (grouped, db)
  | o :: rest =>
      let '(courier, o, db) :=
        match Order.courier o with
        | Some c => (Some c, o, db)
        | None => assign_optimal_courier env o db
        end in
      match courier with
      | Some c => group_loop env rest (group_add grouped (Courier.id c) o) db
      | None => group_loop env rest grouped db
      end
  end.

Definition _group_orders_for_routing (env : Env) (pending : list Order.t)
    (db : DB) : list (Z * list Order.t) * DB :=
  group_loop env pending [] db.

(** [Courier.objects.get(id=courier_id, available=True)]. *)
Definition get_available_courier (db : DB) (courier_id : Z) : result Courier.t :=
  match find (fun c => (Courier.id c =? courier_id)%Z && Courier.available c)
             (couriers db) with
  | Some c => Ok c
  | None => Raise DoesNotExist
  end.

(** The [for order in orders:] loop that follows the creation of a route. *)
Fixpoint assign_orders (env : Env) (courier : Courier.t) (group : list Order.t)
    (db : DB) : DB :=
  match group with
  | [] => db
  | o :: rest =>
      let o1 := set_status "assigned" (set_courier (Some courier) o) in
      let '(o2, db1) := update_delivery_estimates env o1 db in
      assign_orders env courier rest (save_order o2 db1)
  end.

(** The [for courier_id, orders in grouped_orders.items():] loop; only
    [Courier.DoesNotExist] is caught. *)
Fixpoint routes_loop (env : Env) (grouped : list (Z * list Order.t))
    (routes : list DeliveryRoute.t) (db : DB)
  : result (list DeliveryRoute.t) * DB :=
  match grouped with
  | [] => (Ok routes, db)
  | (courier_id, group) :: rest =>
      match get_available_courier db courier_id with
      | Ok courier =>
          match create_delivery_route env courier group None db with
          | (Ok new_route, db1) =>
              routes_loop env rest (routes ++ [new_route])
                (assign_orders env courier group db1)
          | (Raise DoesNotExist, db1) => routes_loop env rest routes db1
          | (Raise e, db1) => (Raise e, db1)
          end
      | Raise DoesNotExist => routes_loop env rest routes db
      | Raise e => (Raise e, db)
      end
  end.

(** [status__in=['new', 'assigned'], created_at__date=date]. *)
Definition is_pending (date : Z) (o : Order.t) : bool :=
  (String.eqb (Order.status o) "new" || String.eqb (Order.status o) "assigned")
  && (Order.created_at_date o =? date)%Z.

Definition create_optimized_routes_for_day (env : Env) (date : option Z) (db : DB)
  : result (list DeliveryRoute.t) * DB :=
  let date :=
    match date with
    | Some d => d
    | None => today env
    end in
  let pending_orders := filter (is_pending date) (orders db) in
  let '(grouped_orders, db) := _group_orders_for_routing env pending_orders db in
  routes_loop env grouped_orders [] db.

(** The key under which [_group_orders_for_routing] files an order: the id
    of the courier it is assigned to or, without one, of the courier
    [assign_optimal_courier] returns; [None] when it files it nowhere. *)
Definition order_key (env : Env) (db : DB) (o : Order.t) : option Z :=
  match Order.courier o with
  | Some c => Some (Courier.id c)
  | None => option_map Courier.id (fst (fst (assign_optimal_courier env o db)))
  end.

(** The date a run works on. *)
Definition run_date (env : Env) (date : option Z) : Z :=
  match date with
  | Some d => d
  | None => today env
  end.

(** All the orders of a grouping. *)
Definition all_grouped (grouped : list (Z * list Order.t)) : list Order.t :=
  List.concat (map snd grouped).

(** The order object as the loop of [create_optimized_routes_for_day]
    saves it for [courier]. *)
Definition assigned (env : Env) (courier : Courier.t) (o : Order.t) : Order.t :=
  let o1 := set_status "assigned" (set_courier (Some courier) o) in
  set_estimated_delivery_time
    (Some (now env + calculate_delivery_time env o1 None)) o1.

(** The couriers of the groups that [Courier.objects.get] resolves, in the
    order of the groups. *)
Fixpoint resolved_couriers (db : DB) (grouped : list (Z * list Order.t))
  : list Courier.t :=
  match grouped with
  | [] => []
  | (courier_id, _) :: rest =>
      match get_available_courier db courier_id with
      | Ok c => c :: resolved_couriers db rest
      | Raise _ => resolved_couriers db rest
      end
  end.

(** [has_key env db o]: the grouping files [o] in some group. *)
Definition has_key (env : Env) (db : DB) (o : Order.t) : bool :=
  match order_key env db o with
  | Some _ => true
  | None => false
  end.

(** A row after the grouping: as it was, or the geocoded copy of a pending
    order without a courier that carries its key. *)
Definition geocoded_from (env : Env) (db : DB) (pending : list Order.t)
    (r r' : Order.t) : Prop :=
  r' = r \/
  exists p lat lon,
    In p pending /\ Order.courier p = None /\ has_key env db p = true /\
    Order.id p = Order.id r /\ r' = set_coordinates (Some lat) (Some lon) p.

(** An order object of a group filed under [k]: a pending order with that
    key, or its geocoded copy when it had no courier. *)
Definition filed_from (env : Env) (db : DB) (pending : list Order.t)
    (k : Z) (o : Order.t) : Prop :=
  exists p,
    In p pending /\ order_key env db p = Some k /\
    (o = p \/
     (Order.courier p = None /\
      exists lat lon, o = set_coordinates (Some lat) (Some lon) p)).

(** A row after the loop over the groups: as it was, when no resolved group
    holds an order with its key; or the assigned copy of such an order. *)
Definition routed_from (env : Env) (db : DB) (grouped : list (Z * list Order.t))
    (r r' : Order.t) : Prop :=
  (r' = r /\
   forall k os c o,
     In (k, os) grouped -> get_available_courier db k = Ok c -> In o os ->
     Order.id o <> Order.id r) \/
  (exists k os c o,
      In (k, os) grouped /\ get_available_courier db k = Ok c /\ In o os /\
      Order.id o = Order.id r /\ r' = assigned env c o).

(** The row of an order after a run on the date [d]: a pending order
    whose key resolves to a courier is saved assigned to that courier (with
    the geocoded coordinates, when it was geocoded); every other row is as
    it was. *)
Definition final_row (env : Env) (db : DB) (d : Z) (r r' : Order.t) : Prop :=
  Order.id r' = Order.id r /\
  match (if is_pending d r then order_key env db r else None) with
  | Some k =>
      match get_available_courier db k with
      | Ok c =>
          exists o,
            r' = assigned env c o /\
            (o = r \/ exists lat lon, o = set_coordinates (Some lat) (Some lon) r)
      | Raise _ => r' = r
      end
  | None => r' = r
  end.

(** [greedy_from locations cur unvisited picked]: [picked] lists [unvisited]
    in the order in which a walk from [cur] takes, at each step, the first
    item of least distance from the position reached. *)
Inductive greedy_from (locations : list (Q * Q))
  : nat -> list nat -> list nat -> Prop :=
| greedy_done cur : greedy_from locations cur [] []
| greedy_step cur l1 next l2 picked :
    (forall j, In j l1 -> hop locations cur next < hop locations cur j) ->
    (forall j, In j l2 -> hop locations cur next <= hop locations cur j) ->
    greedy_from locations next (l1 ++ l2) picked ->
    greedy_from locations cur (l1 ++ next :: l2) (next :: picked).


(** ** [GeoCoder] *)

(** [GeoCoder.geocode_address] on the answer [response] of the geocoding
    service; [float] is Python's conversion of a decoded value to a float,
    which raises on a text that is no number. *)
Definition GeoCoder_geocode_address (float : json -> result Q)
    (response : http_response) : option Q * option Q :=
  try_except
    (data <- fetch_json response ;;
     if json_truthy data then
       first <- getitem_int data 0 ;;
       lat <- getitem first "lat" ;;
       latitude <- float lat ;;
       first <- getitem_int data 0 ;;
       lon <- getitem first "lon" ;;
       longitude <- float lon ;;
       Ok (Some latitude, Some longitude)
     else Ok (None, None))
    (fun _ => (None, None)).

(** ** Readings of the geometry request *)

(** The answer to the request for a geometry that [get_route_coordinates]
    sends: the primary provider's when a credential is set, the secondary
    provider's otherwise. *)
Definition route_request (env : Env) (waypoints : list (Q * Q))
    (profile : string) : http_response :=
  if api_key_set env then
    openroute_route_response env profile (lon_lat waypoints)
  else
    osrm_route_response env (_translate_profile_for_osrm profile)
      (lon_lat waypoints).

(** The path in the body [data] of the selected provider:
    [data['features'][0]['geometry']] or [data['routes'][0]['geometry']],
    when its type is ['LineString'], with every position [[lon, lat]] of its
    ['coordinates'] turned into [(lat, lon)]; [None] when there is no such
    line to read. *)
Definition reported_path (env : Env) (data : json) : option (list (json * json)) :=
  try_except
    (routes <- getitem data (if api_key_set env then "features" else "routes") ;;
     first <- getitem_int routes 0 ;;
     geometry <- getitem first "geometry" ;;
     type <- getitem geometry "type" ;;
     if is_str "LineString" type then
       coords <- getitem geometry "coordinates" ;;
       items <- json_iter coords ;;
       path <- swap_pairs items ;;
       Ok (Some path)
     else Ok None)
    (fun _ => None).

(** [order.priority = priority]. *)
Definition set_priority (priority : string) (o : Order.t) : Order.t :=
  {| Order.id := Order.id o; Order.client := Order.client o;
     Order.courier := Order.courier o;
     Order.address := Order.address o; Order.latitude := Order.latitude o;
     Order.longitude := Order.longitude o; Order.status := Order.status o;
     Order.priority := priority;
     Order.created_at_date := Order.created_at_date o;
     Order.estimated_delivery_time := Order.estimated_delivery_time o |}.

(** ** The views that drive the optimizer and the manager *)

(** [Order.objects.filter(status='new', courier__isnull=True)]. *)
Definition is_unassigned (o : Order.t) : bool :=
  String.eqb (Order.status o) "new" &&
  match Order.courier o with
  | None => true
  | Some _ => false
  end.

(** The [for order in pending_orders:] loop of the view
    [auto_assign_orders]. *)
Fixpoint auto_assign_loop (env : Env) (pending_orders : list Order.t)
    (assigned_count : nat) (db : DB) : nat * DB :=
  match pending_orders with
  | [] => (assigned_count, db)
  | o :: rest =>
      let '(optimal_courier, o, db) := assign_optimal_courier env o db in
      match optimal_courier with
      | Some c =>
          let o1 := set_status "assigned" (set_courier (Some c) o) in
          let '(o2, db1) := update_delivery_estimates env o1 db in
          auto_assign_loop env rest (S assigned_count) (save_order o2 db1)
      | None => auto_assign_loop env rest assigned_count db
      end
  end.

(** The view [auto_assign_orders]: the count its message reports, and the
    tables. *)
Definition auto_assign_orders (env : Env) (db : DB) : nat * DB :=
  auto_assign_loop env (filter is_unassigned (orders db)) 0 db.



(** ** Properties of the Python helpers *)

Lemma Qltb_lt x y : Qltb x y = true <-> x < y.
Proof.
  unfold Qltb. rewrite negb_true_iff. split; intros H.
  - apply Qnot_le_lt. intros Hle. apply Qle_bool_iff in Hle. congruence.
  - destruct (Qle_bool y x) eqn:E; [|reflexivity].
    apply Qle_bool_iff in E. exfalso. exact (Qlt_not_le _ _ H E).
Qed.

Lemma Qltb_ge x y : Qltb x y = false <-> y <= x.
Proof.
  unfold Qltb. rewrite negb_false_iff. apply Qle_bool_iff.
Qed.

(** The scan of [min] keeps, left of its running minimum, only items of
    strictly larger key and, right of it, only items of key at least as
    large. *)
Lemma min_scan_split (key : nat -> Q) (rest l1 l2 : list nat) (best : nat) :
  (forall j, In j l1 -> key best < key j) ->
  (forall j, In j l2 -> key best <= key j) ->
  let m := fold_left (fun best item => if Qltb (key item) (key best) then item else best)
             rest best in
  exists l1' l2',
    (l1 ++ best :: l2 ++ rest = l1' ++ m :: l2')%list /\
    (forall j, In j l1' -> key m < key j) /\
    (forall j, In j l2' -> key m <= key j).
Proof.
  revert l1 l2 best.
  induction rest as [|item rest IH]; intros l1 l2 best H1 H2; simpl.
  - exists l1, l2. rewrite app_nil_r. auto.
  - destruct (Qltb (key item) (key best)) eqn:E.
    + apply Qltb_lt in E.
      destruct (IH (l1 ++ best :: l2)%list [] item) as (l1' & l2' & Heq & Hlt & Hle).
      * intros j Hj. apply in_app_or in Hj. destruct Hj as [Hj | [Hj | Hj]].
        -- eapply Qlt_trans; [exact E | apply H1; exact Hj].
        -- subst j. exact E.
        -- eapply Qlt_le_trans; [exact E | apply H2; exact Hj].
      * intros j [].
      * exists l1', l2'. split; [|split; assumption].
        rewrite <- Heq. simpl. rewrite <- app_assoc. reflexivity.
    + apply Qltb_ge in E.
      destruct (IH l1 (l2 ++ [item])%list best) as (l1' & l2' & Heq & Hlt & Hle).
      * exact H1.
      * intros j Hj. apply in_app_or in Hj. destruct Hj as [Hj | [Hj | []]].
        -- apply H2; exact Hj.
        -- subst j. exact E.
      * exists l1', l2'. split; [|split; assumption].
        rewrite <- Heq. rewrite <- app_assoc. reflexivity.
Qed.

Lemma py_min_split (key : nat -> Q) (first : nat) (rest : list nat) :
  exists l1 l2,
    (first :: rest = l1 ++ py_min key first rest :: l2)%list /\
    (forall j, In j l1 -> key (py_min key first rest) < key j) /\
    (forall j, In j l2 -> key (py_min key first rest) <= key j).
Proof.
  destruct (min_scan_split key rest [] [] first) as (l1 & l2 & Heq & H1 & H2).
  - intros j [].
  - intros j [].
  - exists l1, l2. simpl in Heq. auto.
Qed.

Lemma py_min_le (key : nat -> Q) (first : nat) (rest : list nat) (j : nat) :
  In j (first :: rest) -> key (py_min key first rest) <= key j.
Proof.
  destruct (py_min_split key first rest) as (l1 & l2 & Heq & H1 & H2).
  rewrite Heq. intros Hj. apply in_app_or in Hj. destruct Hj as [Hj | [Hj | Hj]].
  - apply Qlt_le_weak, H1, Hj.
  - subst j. apply Qle_refl.
  - apply H2, Hj.
Qed.

Lemma remove_first_split (x : nat) (l1 l2 : list nat) :
  ~ In x l1 -> remove_first x (l1 ++ x :: l2) = (l1 ++ l2)%list.
Proof.
  induction l1 as [|y l1 IH]; simpl; intros H.
  - rewrite Nat.eqb_refl. reflexivity.
  - destruct (Nat.eqb_spec y x) as [E | E].
    + exfalso. apply H. left. exact E.
    + f_equal. apply IH. intros Hin. apply H. right. exact Hin.
Qed.

(** ** The nearest-neighbour loop *)

Lemma nearest_neighbor_greedy (locations : list (Q * Q)) (n : nat) :
  forall route unvisited,
    List.length unvisited = n ->
    NoDup unvisited ->
    exists picked,
      nearest_neighbor locations route unvisited = (route ++ picked)%list /\
      greedy_from locations (last route 0%nat) unvisited picked.
Proof.
  induction n as [|n IH]; intros route unvisited Hlen Hnd.
  - destruct unvisited; [|discriminate].
    exists []. simp nearest_neighbor. rewrite app_nil_r. split; [reflexivity | constructor].
  - destruct unvisited as [|u us]; [discriminate|].
    simp nearest_neighbor.
    set (m := py_min (hop locations (last route 0%nat)) u us).
    destruct (py_min_split (hop locations (last route 0%nat)) u us)
      as (l1 & l2 & Heq & Hlt & Hle).
    fold m in Heq, Hlt, Hle.
    rewrite Heq in Hnd |- *.
    assert (Hm : ~ In m l1).
    { apply NoDup_remove_2 in Hnd. intros Hin. apply Hnd.
      apply in_or_app. left. exact Hin. }
    rewrite (remove_first_split m l1 l2 Hm).
    destruct (IH (route ++ [m])%list (l1 ++ l2)%list) as (picked & Hnn & Hg).
    + assert (Hl : List.length (u :: us) = List.length (l1 ++ m :: l2)%list)
        by (rewrite Heq; reflexivity).
      rewrite Hlen in Hl. rewrite !length_app in *. simpl in Hl. lia.
    + apply NoDup_remove_1 in Hnd. exact Hnd.
    + exists (m :: picked). split.
      * rewrite Hnn. rewrite <- app_assoc. reflexivity.
      * rewrite last_last in Hg. constructor; assumption.
Qed.

Lemma greedy_from_perm (locations : list (Q * Q)) cur unvisited picked :
  greedy_from locations cur unvisited picked -> Permutation picked unvisited.
Proof.
  induction 1 as [|cur l1 next l2 picked Hlt Hle Hg IH].
  - constructor.
  - apply Permutation_cons_app. exact IH.
Qed.

Lemma sorted_app_mid (l1 l2 : list nat) (x : nat) :
  StronglySorted lt (l1 ++ x :: l2) ->
  StronglySorted lt (l1 ++ l2) /\ ~ In x (l1 ++ l2) /\
  (forall j, In j l2 -> (x < j)%nat).
Proof.
  induction l1 as [|y l1 IH]; simpl; intros H.
  - inversion H as [|? ? Hs Hall]; subst. split; [exact Hs|]. split.
    + intros Hin. rewrite Forall_forall in Hall. specialize (Hall _ Hin). lia.
    + intros j Hj. rewrite Forall_forall in Hall. apply Hall, Hj.
  - inversion H as [|? ? Hs Hall]; subst.
    destruct (IH Hs) as (Hs' & Hnin & Hgt). split; [|split].
    + constructor; [exact Hs'|].
      rewrite Forall_forall in *. intros j Hj. apply Hall.
      apply in_app_or in Hj. apply in_or_app.
      destruct Hj as [Hj | Hj]; [left | right; right]; exact Hj.
    + intros [E | Hin]; [|exact (Hnin Hin)].
      rewrite Forall_forall in Hall.
      assert (y < x)%nat by (apply Hall; apply in_or_app; right; left; reflexivity).
      lia.
    + exact Hgt.
Qed.

(** Every pick of a greedy walk over an ascending list is an item not
    picked before, of least distance among those, and of least index
    among the items at that distance. *)
Lemma greedy_from_spec (locations : list (Q * Q)) cur unvisited picked :
  greedy_from locations cur unvisited picked ->
  StronglySorted lt unvisited ->
  forall s1 next s2,
    picked = (s1 ++ next :: s2)%list ->
    In next unvisited /\ ~ In next s1 /\
    forall j, In j unvisited -> ~ In j s1 ->
      hop locations (last (cur :: s1) 0%nat) next
        <= hop locations (last (cur :: s1) 0%nat) j /\
      (hop locations (last (cur :: s1) 0%nat) j
         == hop locations (last (cur :: s1) 0%nat) next -> (next <= j)%nat).
Proof.
  induction 1 as [|cur l1 n0 l2 picked Hlt Hle Hg IH]; intros Hs s1 next s2 Heq.
  - destruct s1; discriminate.
  - destruct (sorted_app_mid l1 l2 n0 Hs) as (Hs' & Hnin & Hgt).
    destruct s1 as [|x s1]; simpl in Heq; injection Heq as -> Heq.
    + split; [apply in_or_app; right; left; reflexivity|].
      split; [intros []|].
      intros j Hj _. simpl. apply in_app_or in Hj.
      destruct Hj as [Hj | [Hj | Hj]].
      * split; [apply Qlt_le_weak, Hlt, Hj|].
        intros E. exfalso. specialize (Hlt j Hj). rewrite E in Hlt.
        exact (Qlt_irrefl _ Hlt).
      * subst j. split; [apply Qle_refl | lia].
      * split; [apply Hle, Hj|]. intros _. specialize (Hgt j Hj). lia.
    + destruct (IH Hs' s1 next s2 Heq) as (Hin & Hns1 & Hmin).
      split; [|split].
      * apply in_app_or in Hin. apply in_or_app.
        destruct Hin as [Hin | Hin]; [left | right; right]; exact Hin.
      * intros [E | Hin']; [|exact (Hns1 Hin')]. subst next. exact (Hnin Hin).
      * intros j Hj Hnj.
        assert (Hj' : In j (l1 ++ l2)).
        { apply in_app_or in Hj. apply in_or_app.
          destruct Hj as [Hj | [Hj | Hj]]; [left; exact Hj | | right; exact Hj].
          exfalso. apply Hnj. left. exact Hj. }
        assert (Hnj' : ~ In j s1) by (intros Hin'; apply Hnj; right; exact Hin').
        change (last (cur :: x :: s1) 0%nat) with (last (x :: s1) 0%nat).
        exact (Hmin j Hj' Hnj').
Qed.

Lemma seq_sorted (start len : nat) : StronglySorted lt (seq start len).
Proof.
  revert start. induction len as [|len IH]; intros start; simpl.
  - constructor.
  - constructor; [apply IH|].
    rewrite Forall_forall. intros j Hj. apply in_seq in Hj. lia.
Qed.

Lemma build_locations_length courier orders :
  List.length (build_locations courier orders) = S (List.length orders).
Proof. unfold build_locations. simpl. rewrite length_map. reflexivity. Qed.

(** The tour is the start followed by a greedy walk over the order
    indices [1..n]. *)
Lemma tour_greedy courier orders :
  exists picked,
    tour courier orders = (0%nat :: picked) /\
    greedy_from (build_locations courier orders) 0%nat
      (seq 1 (List.length orders)) picked.
Proof.
  unfold tour. rewrite build_locations_length.
  replace (S (List.length orders) - 1)%nat with (List.length orders) by lia.
  destruct (nearest_neighbor_greedy (build_locations courier orders)
              (List.length orders) [0%nat] (seq 1 (List.length orders)))
    as (picked & Hnn & Hg).
  - apply length_seq.
  - apply seq_NoDup.
  - exists picked. split; [exact Hnn | exact Hg].
Qed.

Lemma tour_perm courier orders :
  exists picked,
    tour courier orders = (0%nat :: picked) /\
    Permutation picked (seq 1 (List.length orders)).
Proof.
  destruct (tour_greedy courier orders) as (picked & Ht & Hg).
  exists picked. split; [exact Ht | exact (greedy_from_perm _ _ _ _ Hg)].
Qed.

(** Every index of the tour is an index of [locations]. *)
Lemma tour_in_range courier orders idx :
  In idx (tour courier orders) ->
  (idx < List.length (build_locations courier orders))%nat.
Proof.
  destruct (tour_perm courier orders) as (picked & Ht & Hp).
  rewrite Ht, build_locations_length. intros [E | Hin].
  - lia.
  - apply (Permutation_in _ Hp) in Hin. apply in_seq in Hin. lia.
Qed.

(** [locations[j]] is the resolved location of the [j]-th order. *)
Lemma location_at_order courier orders j o :
  nth_error orders j = Some o ->
  location_at (build_locations courier orders) (S j)
  = order_location (start_location courier) o.
Proof.
  intros H. unfold location_at, build_locations. simpl.
  apply nth_error_nth. rewrite nth_error_map, H. reflexivity.
Qed.

Lemma map_fst_combine {A B : Type} (l : list A) (l' : list B) :
  List.length l = List.length l' -> map fst (combine l l') = l.
Proof.
  revert l'. induction l as [|a l IH]; intros [|b l'] H; simpl in *;
    try discriminate; [reflexivity|].
  f_equal. apply IH. lia.
Qed.

Lemma map_snd_combine {A B : Type} (l : list A) (l' : list B) :
  List.length l = List.length l' -> map snd (combine l l') = l'.
Proof.
  revert l'. induction l as [|a l IH]; intros [|b l'] H; simpl in *;
    try discriminate; [reflexivity|].
  f_equal. apply IH. lia.
Qed.



Lemma map_combine_fst {A B C : Type} (f : A -> C) (l : list A) (l' : list B) :
  List.length l = List.length l' ->
  map (fun x => f (fst x)) (combine l l') = map f l.
Proof.
  intros H. rewrite <- (map_map fst f), map_fst_combine by exact H. reflexivity.
Qed.

Lemma map_combine_snd {A B C : Type} (f : B -> C) (l : list A) (l' : list B) :
  List.length l = List.length l' ->
  map (fun x => f (snd x)) (combine l l') = map f l'.
Proof.
  intros H. rewrite <- (map_map snd f), map_snd_combine by exact H. reflexivity.
Qed.

(** The entries of a non-empty optimization: one per pick of the tour, in
    tour order, numbered from 1. *)
Lemma optimize_route_entries env courier first_order others :
  map sequence (route (optimize_route env courier (first_order :: others)))
    = seq 1 (List.length (first_order :: others)) /\
  map order (route (optimize_route env courier (first_order :: others)))
    = map (fun idx => nth (idx - 1) (first_order :: others) first_order)
          (tl (tour courier (first_order :: others))) /\
  map location (route (optimize_route env courier (first_order :: others)))
    = map (location_at (build_locations courier (first_order :: others)))
          (tl (tour courier (first_order :: others))).
Proof.
  unfold optimize_route. cbv beta iota zeta. cbn [route].
  set (orders := first_order :: others).
  destruct (tour_perm courier orders) as (p & Ht & Hp).
  rewrite Ht. cbn [tl].
  assert (Hlen : List.length (seq 1 (List.length p)) = List.length p)
    by apply length_seq.
  rewrite !map_map. cbn [sequence order location].
  split; [|split].
  - rewrite (map_combine_fst (fun i => i)), map_id by exact Hlen.
    rewrite (Permutation_length Hp), length_seq. reflexivity.
  - apply (map_combine_snd (fun idx => nth (idx - 1) orders first_order)), Hlen.
  - apply (map_combine_snd (location_at (build_locations courier orders))), Hlen.
Qed.

(** ** The route optimizer *)

(** C4. For a non-empty order list the tour of [optimize_route] starts at
    the start location (index 0) and then visits every order location once;
    each stop appended is a location not visited before, at least
    great-circle distance from the position the tour has reached, and among
    the unvisited locations at exactly that distance it is the first in
    input order. *)
Theorem optimize_route_nearest_neighbor env courier orders :
  orders <> [] ->
  let locations := build_locations courier orders in
  let n := List.length orders in
  exists picked,
    tour courier orders = (0%nat :: picked) /\
    Permutation picked (seq 1 n) /\
    map location (route (optimize_route env courier orders))
      = map (location_at locations) picked /\
    forall visited next rest,
      picked = (visited ++ next :: rest)%list ->
      let current := last (0%nat :: visited) 0%nat in
      (1 <= next <= n)%nat /\ ~ In next visited /\
      forall j, (1 <= j <= n)%nat -> ~ In j visited ->
        hop locations current next <= hop locations current j /\
        (hop locations current j == hop locations current next -> (next <= j)%nat).
Proof.
  intros Hne locations n.
  destruct (tour_greedy courier orders) as (picked & Ht & Hg).
  exists picked. split; [exact Ht|].
  split; [exact (greedy_from_perm _ _ _ _ Hg)|].
  split.
  - destruct orders as [|first_order others]; [contradiction|].
    destruct (optimize_route_entries env courier first_order others) as (_ & _ & Hl).
    rewrite Hl, Ht. reflexivity.
  - intros visited next rest Heq current.
    destruct (greedy_from_spec _ _ _ _ Hg (seq_sorted 1 n) visited next rest Heq)
      as (Hin & Hnv & Hmin).
    split; [apply in_seq in Hin; lia|].
    split; [exact Hnv|].
    intros j Hj Hnj. apply Hmin; [apply in_seq; lia | exact Hnj].
Qed.

Lemma fold_insert_route_orders (route_id : Z) (entries : list route_entry) (db : DB) :
  let db' :=
    fold_left (fun db e => insert_route_order (new_route_order route_id e) db)
      entries db in
  route_orders db' = (route_orders db ++ map (new_route_order route_id) entries)%list /\
  delivery_routes db' = delivery_routes db /\
  orders db' = orders db /\
  couriers db' = couriers db.
Proof.
  revert db. induction entries as [|e entries IH]; intros db; simpl.
  - rewrite app_nil_r. auto.
  - destruct (IH (insert_route_order (new_route_order route_id e) db))
      as (H1 & H2 & H3 & H4).
    rewrite H1, H2, H3, H4. simpl. rewrite <- app_assoc. auto.
Qed.

(** What [create_delivery_route] does to the tables for a non-empty list. *)
Lemma create_delivery_route_nonempty env courier first_order others name db :
  let orders_in := first_order :: others in
  exists new_route,
    create_delivery_route env courier orders_in name db
    = (Ok new_route,
       {| couriers := couriers db;
          orders := orders db;
          delivery_routes := (delivery_routes db ++ [new_route])%list;
          route_orders :=
            (route_orders db ++
             map (new_route_order (DeliveryRoute.id new_route))
                 (route (optimize_route env courier orders_in)))%list |}) /\
    DeliveryRoute.courier new_route = courier.
Proof.
  intros orders_in. unfold create_delivery_route.
  assert (Hc : route_coordinates (optimize_route env courier orders_in)
               = Some (coordinates
                   (get_route_summary env
                      (map (location_at (build_locations courier orders_in))
                           (tour courier orders_in))
                      (lookup (Courier.vehicle_type courier) profile_map "driving-car"))))
    by reflexivity.
  rewrite Hc. cbv zeta.
  match goal with
  | |- exists r, (Ok ?R, fold_left ?F ?E ?D) = _ /\ _ =>
      exists R;
      destruct (fold_insert_route_orders (DeliveryRoute.id R) E D)
        as (H1 & H2 & H3 & H4)
  end.
  split; [|reflexivity].
  f_equal.
  match goal with
  | |- ?X = _ => destruct X as [cs os rs ros] eqn:E
  end.
  simpl in H1, H2, H3, H4. subst. reflexivity.
Qed.


(** An empty order list: [optimize_route] returns the zero-metric empty
    result, which has no ['route_coordinates'] key. *)
Lemma optimize_route_empty env courier :
  optimize_route env courier []
  = {| route := []; total_distance := 0; estimated_duration := 0;
       route_coordinates := None |}.
Proof. reflexivity. Qed.

(** C2 (what the code does). With an empty order list
    [create_delivery_route] does not return: reading
    ['route_coordinates'] from the empty result raises [KeyError].  No
    route and no stop has been stored by then. *)
Theorem create_delivery_route_empty_raises env courier name db :
  create_delivery_route env courier [] name db
  = (Raise (KeyError "route_coordinates"), db).
Proof. reflexivity. Qed.

(** ** The delivery-time estimator *)

Lemma calculate_delivery_time_unfold env o c :
  calculate_delivery_time env o (Some c)
  = base_preparation_time +
    delivery_distance o c / lookup (Courier.vehicle_type c) vehicle_speeds 25 * 60 *
    _get_traffic_factor
      (or_default (py_or (Order.latitude o) (Client.latitude (Order.client o)))
         (or_default (Courier.current_latitude c) 50.4501))
      (or_default (py_or (Order.longitude o) (Client.longitude (Order.client o)))
         (or_default (Courier.current_longitude c) 30.5234))
      (now_hour env) (now_weekday env) *
    lookup (Order.priority o) priority_factors 1.0.
Proof. reflexivity. Qed.

(** C5. The estimate for an order and a courier is 30 minutes of
    preparation plus [distance / speed * 60] minutes of travel scaled by
    the traffic factor and the priority factor; the speeds are bike 15,
    motorcycle 35, car 40, van 35 and 25 for any other vehicle; the traffic
    factor is 1.5 on weekdays at 7-9 and 17-19, 1.2 on weekdays at 10-16,
    1.3 on weekends at 12-18 and 1.0 otherwise; the priority factors are
    low 1.0, normal 1.0, high 0.8, urgent 0.6; and a car, 10 km, a weekday
    at 8 and an urgent order give 43.5 minutes. *)
Theorem calculate_delivery_time_formula :
  (forall env o c,
      exists traffic_factor priority_factor,
        calculate_delivery_time env o (Some c)
        == 30 + (delivery_distance o c
                 / lookup (Courier.vehicle_type c) vehicle_speeds 25 * 60)
                * traffic_factor * priority_factor /\
        (forall lat lon,
            traffic_factor
            = _get_traffic_factor lat lon (now_hour env) (now_weekday env)) /\
        priority_factor = lookup (Order.priority o) priority_factors 1.0) /\
  (lookup "bike" vehicle_speeds 25 = 15 /\
   lookup "motorcycle" vehicle_speeds 25 = 35 /\
   lookup "car" vehicle_speeds 25 = 40 /\
   lookup "van" vehicle_speeds 25 = 35 /\
   forall v, v <> "bike" -> v <> "motorcycle" -> v <> "car" -> v <> "van" ->
             lookup v vehicle_speeds 25 = 25) /\
  (forall lat lon hour day,
      ((day < 5)%Z -> (7 <= hour <= 9)%Z \/ (17 <= hour <= 19)%Z ->
       _get_traffic_factor lat lon hour day = 1.5) /\
      ((day < 5)%Z -> (10 <= hour <= 16)%Z ->
       _get_traffic_factor lat lon hour day = 1.2) /\
      ((day < 5)%Z -> (hour < 7)%Z \/ (19 < hour)%Z ->
       _get_traffic_factor lat lon hour day = 1.0) /\
      ((5 <= day)%Z -> (12 <= hour <= 18)%Z ->
       _get_traffic_factor lat lon hour day = 1.3) /\
      ((5 <= day)%Z -> (hour < 12)%Z \/ (18 < hour)%Z ->
       _get_traffic_factor lat lon hour day = 1.0)) /\
  (lookup "low" priority_factors 1.0 = 1.0 /\
   lookup "normal" priority_factors 1.0 = 1.0 /\
   lookup "high" priority_factors 1.0 = 0.8 /\
   lookup "urgent" priority_factors 1.0 = 0.6) /\
  (forall env o c,
      Courier.vehicle_type c = "car" ->
      delivery_distance o c == 10 ->
      (now_weekday env < 5)%Z ->
      now_hour env = 8%Z ->
      Order.priority o = "urgent" ->
      calculate_delivery_time env o (Some c) == 43.5).
Proof.
  split; [|split; [|split; [|split]]].
  - intros env o c.
    exists (_get_traffic_factor 0 0 (now_hour env) (now_weekday env)),
           (lookup (Order.priority o) priority_factors 1.0).
    split; [|split; [reflexivity | reflexivity]].
    rewrite calculate_delivery_time_unfold. reflexivity.
  - repeat split; try reflexivity.
    intros v H1 H2 H3 H4. unfold vehicle_speeds. cbn [lookup].
    repeat match goal with
    | |- context [String.eqb ?a ?b] =>
        destruct (String.eqb_spec a b); [congruence|]
    end.
    reflexivity.
  - intros lat lon hour day. unfold _get_traffic_factor.
    repeat split; intros Hd Hh;
      repeat match goal with
      | |- context [Z.ltb ?a ?b] => destruct (Z.ltb_spec a b); try lia
      | |- context [Z.leb ?a ?b] => destruct (Z.leb_spec a b); try lia
      end; cbn [andb orb]; reflexivity.
  - repeat split; reflexivity.
  - intros env o c Hv Hd Hw Hh Hp.
    rewrite calculate_delivery_time_unfold, Hv, Hp, Hh, Hd.
    unfold _get_traffic_factor.
    destruct (Z.ltb_spec (now_weekday env) 5); [|lia].
    vm_compute. reflexivity.
Qed.

(** ** The road router *)

Lemma calculate_distance_nonneg lat1 lon1 lat2 lon2 :
  math_sound math -> 0 <= calculate_distance lat1 lon1 lat2 lon2.
Proof.
  intros [Hsqrt Hatan]. unfold calculate_distance. cbv zeta.
  apply Qmult_le_0_compat; [discriminate|].
  apply Qmult_le_0_compat; [discriminate|].
  apply Hatan; apply Hsqrt.
Qed.












(** The geometry request degrades to the input waypoints when it fails. *)
Lemma geometry_request_path_failed env waypoints profile :
  (forall p c, openroute_route_response env p c = ConnectionFailed) ->
  (forall p c, osrm_route_response env p c = ConnectionFailed) ->
  geometry_request_path env waypoints profile = as_points waypoints.
Proof.
  intros H1 H2. unfold geometry_request_path, _get_openroute_route, _get_osrm_route.
  cbv zeta. rewrite H1, H2. destruct (api_key_set env); reflexivity.
Qed.


(** C9 (the path operation). Fewer than two waypoints come back unchanged,
    whatever the settings and the providers. *)
Lemma get_route_coordinates_short env waypoints profile :
  (List.length waypoints < 2)%nat ->
  get_route_coordinates env waypoints profile = as_points waypoints.
Proof.
  intros H. unfold get_route_coordinates.
  destruct (Nat.ltb_spec (List.length waypoints) 2); [reflexivity | lia].
Qed.

(** The fallback of fewer than two waypoints has zero metrics. *)
Lemma straight_line_short waypoints :
  (List.length waypoints < 2)%nat ->
  _calculate_straight_line_summary waypoints
  = {| distance := 0; duration := 0 / 25 * 60; coordinates := as_points waypoints |}.
Proof.
  intros H. destruct waypoints as [|a [|b rest]]; [reflexivity | reflexivity|].
  simpl in H. lia.
Qed.

(** C9 (what the code does). The summary operation has no guard on the
    number of waypoints: with routing enabled, a single waypoint is sent to
    the provider and the result is what the provider makes it, 1.5 km and
    2 minutes when it answers so, zero metrics when it does not answer. *)
Theorem get_route_summary_single_waypoint :
  (List.length one_waypoint < 2)%nat /\
  distance (get_route_summary osrm_answering_env one_waypoint "driving-car") == 1.5 /\
  duration (get_route_summary osrm_answering_env one_waypoint "driving-car") == 2 /\
  coordinates (get_route_summary osrm_answering_env one_waypoint "driving-car")
    = as_points one_waypoint /\
  ~ distance (get_route_summary osrm_answering_env one_waypoint "driving-car") == 0 /\
  distance (get_route_summary osrm_down_env one_waypoint "driving-car") == 0 /\
  duration (get_route_summary osrm_down_env one_waypoint "driving-car") == 0.
Proof.
  split; [cbn; lia|].
  split; [reflexivity|]. split; [reflexivity|]. split; [reflexivity|].
  split; [intros H; vm_compute in H; discriminate|].
  split; reflexivity.
Qed.

(** ** Start and stop locations *)

Lemma or_default_truthy x q d : x = Some q -> ~ q == 0 -> or_default x d = q.
Proof.
  intros -> H. unfold or_default, float_truthy.
  destruct (Qeq_bool q 0) eqn:E; [|reflexivity].
  apply Qeq_bool_eq in E. contradiction.
Qed.

(** A courier whose two coordinates are present and not zero starts the
    tour where it is; a courier without coordinates starts at the depot. *)
Lemma start_location_known courier lat lon :
  Courier.current_latitude courier = Some lat ->
  Courier.current_longitude courier = Some lon ->
  ~ lat == 0 -> ~ lon == 0 ->
  start_location courier = (lat, lon).
Proof.
  intros Hlat Hlon H1 H2. unfold start_location.
  rewrite (or_default_truthy _ lat _ Hlat H1), (or_default_truthy _ lon _ Hlon H2).
  reflexivity.
Qed.

Lemma start_location_default courier :
  Courier.current_latitude courier = None ->
  Courier.current_longitude courier = None ->
  start_location courier = (50.4501, 30.5234).
Proof. intros H1 H2. unfold start_location. rewrite H1, H2. reflexivity. Qed.

(** The location of an order whose coordinates are present and not zero
    is its own; failing that, its client's when those are present and not
    zero; failing both, the start. *)
Lemma order_location_own start o lat lon :
  Order.latitude o = Some lat -> Order.longitude o = Some lon ->
  ~ lat == 0 -> ~ lon == 0 ->
  order_location start o = (lat, lon).
Proof.
  intros Hlat Hlon H1 H2. unfold order_location, py_or. rewrite Hlat, Hlon.
  assert (T1 : truthy (Some lat) = true).
  { cbn. unfold float_truthy. destruct (Qeq_bool lat 0) eqn:E; [|reflexivity].
    apply Qeq_bool_eq in E. contradiction. }
  assert (T2 : truthy (Some lon) = true).
  { cbn. unfold float_truthy. destruct (Qeq_bool lon 0) eqn:E; [|reflexivity].
    apply Qeq_bool_eq in E. contradiction. }
  rewrite T1, T2.
  rewrite (or_default_truthy _ lat _ eq_refl H1), (or_default_truthy _ lon _ eq_refl H2).
  reflexivity.
Qed.

Lemma order_location_client start o lat lon :
  Order.latitude o = None -> Order.longitude o = None ->
  Client.latitude (Order.client o) = Some lat ->
  Client.longitude (Order.client o) = Some lon ->
  ~ lat == 0 -> ~ lon == 0 ->
  order_location start o = (lat, lon).
Proof.
  intros Hlat Hlon Hclat Hclon H1 H2. unfold order_location, py_or.
  rewrite Hlat, Hlon. cbn [truthy].
  rewrite (or_default_truthy _ lat _ Hclat H1), (or_default_truthy _ lon _ Hclon H2).
  reflexivity.
Qed.

Lemma order_location_start start o :
  Order.latitude o = None -> Order.longitude o = None ->
  Client.latitude (Order.client o) = None ->
  Client.longitude (Order.client o) = None ->
  order_location start o = start.
Proof.
  intros Hlat Hlon Hclat Hclon. unfold order_location, py_or.
  rewrite Hlat, Hlon, Hclat, Hclon. destruct start. reflexivity.
Qed.

(** C8 (what the code does). [x or default] takes a coordinate [0.0] for a
    missing one: the tour of a courier at latitude 0, longitude 30 starts at
    latitude 50.4501, longitude 30, and so does the location list. *)
Theorem start_location_zero_latitude :
  Courier.current_latitude equator_courier = Some 0 /\
  Courier.current_longitude equator_courier = Some 30 /\
  start_location equator_courier = (50.4501, 30) /\
  forall orders_in,
    hd_error (build_locations equator_courier orders_in) = Some (50.4501, 30).
Proof. repeat split. Qed.

(** ** Courier assignment *)

(** The scan for the nearest courier: nothing is returned only when nothing
    was held and no row has a position; what is returned is the courier
    held at the start or a row with a position, and no row with a position
    is nearer. *)
Lemma nearest_courier_spec lat lon rows :
  forall best_courier min_distance,
    match best_courier, min_distance with
    | None, None => True
    | Some c, Some d => d = courier_distance lat lon c
    | _, _ => False
    end ->
    match nearest_courier lat lon rows best_courier min_distance with
    | None =>
        best_courier = None /\ forall c, In c rows -> has_position c = false
    | Some r =>
        (best_courier = Some r \/ (In r rows /\ has_position r = true)) /\
        (forall c, In c rows -> has_position c = true ->
                   courier_distance lat lon r <= courier_distance lat lon c) /\
        (forall c, best_courier = Some c ->
                   courier_distance lat lon r <= courier_distance lat lon c)
    end.
Proof.
  induction rows as [|courier rest IH]; intros best_courier min_distance Hinv;
    cbn [nearest_courier].
  - destruct best_courier as [c|].
    + split; [left; reflexivity|]. split.
      * intros c' [].
      * intros c' E. injection E as <-. apply Qle_refl.
    + split; [reflexivity | intros c' []].
  - destruct (has_position courier) eqn:Hpos.
    + destruct best_courier as [b|], min_distance as [m|]; try contradiction.
      * subst m.
        destruct (Qltb (courier_distance lat lon courier) (courier_distance lat lon b))
          eqn:Hlt.
        -- apply Qltb_lt in Hlt.
           specialize (IH (Some courier) (Some (courier_distance lat lon courier)) eq_refl).
           destruct (nearest_courier lat lon rest (Some courier)
                       (Some (courier_distance lat lon courier))) as [r|];
             [|destruct IH; discriminate].
           destruct IH as (Hor & Hmin & Hbest). split; [|split].
           ++ right. destruct Hor as [E | [Hin Hp]].
              ** injection E as <-. split; [left; reflexivity | exact Hpos].
              ** split; [right; exact Hin | exact Hp].
           ++ intros c [E | Hin] Hp.
              ** subst c. apply Hbest. reflexivity.
              ** apply Hmin; assumption.
           ++ intros c E. injection E as <-.
              eapply Qle_trans; [apply Hbest; reflexivity|].
              apply Qlt_le_weak. exact Hlt.
        -- apply Qltb_ge in Hlt.
           specialize (IH (Some b) (Some (courier_distance lat lon b)) eq_refl).
           destruct (nearest_courier lat lon rest (Some b)
                       (Some (courier_distance lat lon b))) as [r|];
             [|destruct IH; discriminate].
           destruct IH as (Hor & Hmin & Hbest). split; [|split].
           ++ destruct Hor as [E | [Hin Hp]];
                [left; exact E | right; split; [right; exact Hin | exact Hp]].
           ++ intros c [E | Hin] Hp.
              ** subst c. eapply Qle_trans; [apply Hbest; reflexivity | exact Hlt].
              ** apply Hmin; assumption.
           ++ exact Hbest.
      * specialize (IH (Some courier) (Some (courier_distance lat lon courier)) eq_refl).
        destruct (nearest_courier lat lon rest (Some courier)
                    (Some (courier_distance lat lon courier))) as [r|];
          [|destruct IH; discriminate].
        destruct IH as (Hor & Hmin & Hbest). split; [|split].
        -- right. destruct Hor as [E | [Hin Hp]].
           ++ injection E as <-. split; [left; reflexivity | exact Hpos].
           ++ split; [right; exact Hin | exact Hp].
        -- intros c [E | Hin] Hp.
           ++ subst c. apply Hbest. reflexivity.
           ++ apply Hmin; assumption.
        -- intros c E. discriminate.
    + specialize (IH best_courier min_distance Hinv).
      destruct (nearest_courier lat lon rest best_courier min_distance) as [r|].
      * destruct IH as (Hor & Hmin & Hbest). split; [|split].
        -- destruct Hor as [E | [Hin Hp]];
             [left; exact E | right; split; [right; exact Hin | exact Hp]].
        -- intros c [E | Hin] Hp; [subst c; congruence | apply Hmin; assumption].
        -- exact Hbest.
      * destruct IH as (Hb & Hnone). split; [exact Hb|].
        intros c [E | Hin]; [subst c; exact Hpos | apply Hnone; exact Hin].
Qed.

Lemma queryset_first_some c rest : exists r, queryset_first (c :: rest) = Some r.
Proof. eexists. reflexivity. Qed.

(** [assign_optimal_courier] returns no courier exactly when no courier is
    available. *)
Lemma assign_optimal_courier_none env o db :
  fst (fst (assign_optimal_courier env o db)) = None
  <-> filter Courier.available (couriers db) = [].
Proof.
  unfold assign_optimal_courier.
  destruct (filter Courier.available (couriers db)) as [|c rest] eqn:Ef.
  - split; reflexivity.
  - split; [|discriminate]. intros H. exfalso. revert H.
    repeat match goal with
    | |- context [let '(_, _) := ?x in _] => destruct x
    | |- context [match ?x with _ => _ end] => destruct x eqn:?
    end; cbn [fst]; try discriminate.
Qed.

(** C7 (what the code does). Two couriers are available, one in Kyiv and
    one on the equator at latitude 0, longitude 30; for an order at
    latitude 1, longitude 30 the test [courier.current_latitude and
    courier.current_longitude] skips the courier on the equator, and the
    courier in Kyiv is returned whatever the distances are. *)
Theorem assign_optimal_courier_skips_zero_latitude env :
  fst (fst (assign_optimal_courier env (order_at 7 1 30 "normal") two_couriers_db))
  = Some sample_courier.
Proof. reflexivity. Qed.

(** ** The daily run *)

Lemma queryset_first_In rows r : queryset_first rows = Some r -> In r rows.
Proof.
  destruct rows as [|c rest]; [discriminate|]. cbn [queryset_first].
  intros H. injection H as <-.
  revert c. induction rest as [|x rest IH]; intros c; cbn [fold_left].
  - left. reflexivity.
  - destruct (Courier.id x <? Courier.id c)%Z.
    + destruct (IH x) as [E | Hin]; [right; left; exact E | right; right; exact Hin].
    + destruct (IH c) as [E | Hin]; [left; exact E | right; right; exact Hin].
Qed.

Lemma nearest_courier_In lat lon rows r :
  nearest_courier lat lon rows None None = Some r -> In r rows.
Proof.
  intros H. pose proof (nearest_courier_spec lat lon rows None None I) as Hs.
  rewrite H in Hs. destruct Hs as ([E | [Hin _]] & _); [discriminate | exact Hin].
Qed.

(** With coordinates on the order or its client that pass the truth test,
    the courier returned is an available one: the nearest of those that
    pass the position test or, when none passes it, the first. *)
Lemma assign_optimal_courier_nearest env o db lat lon a rest :
  filter Courier.available (couriers db) = a :: rest ->
  py_or (Order.latitude o) (Client.latitude (Order.client o)) = Some lat ->
  py_or (Order.longitude o) (Client.longitude (Order.client o)) = Some lon ->
  float_truthy lat = true -> float_truthy lon = true ->
  exists r,
    fst (fst (assign_optimal_courier env o db)) = Some r /\
    In r (a :: rest) /\
    ((has_position r = true /\
      forall c, In c (a :: rest) -> has_position c = true ->
                courier_distance lat lon r <= courier_distance lat lon c) \/
     ((forall c, In c (a :: rest) -> has_position c = false) /\
      queryset_first (a :: rest) = Some r)).
Proof.
  intros Hf Hlat Hlon Tlat Tlon. unfold assign_optimal_courier.
  rewrite Hf, Hlat, Hlon. cbn [truthy]. rewrite Tlat, Tlon. cbn [negb orb].
  rewrite Tlat, Tlon. cbn [negb orb].
  pose proof (nearest_courier_spec lat lon (a :: rest) None None I) as Hs.
  destruct (nearest_courier lat lon (a :: rest) None None) as [r|].
  - destruct Hs as ([E | [Hin Hp]] & Hmin & _); [discriminate|].
    exists r. cbn [fst]. split; [reflexivity|]. split; [exact Hin|].
    left. split; [exact Hp | exact Hmin].
  - destruct Hs as [_ Hnone].
    destruct (queryset_first_some a rest) as (r & Hr).
    exists r. cbn [fst]. split; [exact Hr|].
    split; [apply queryset_first_In; exact Hr|].
    right. split; [exact Hnone | exact Hr].
Qed.

(** Without such coordinates, and with a geocoder that finds nothing, the
    first available courier is returned. *)
Lemma assign_optimal_courier_unresolved env o db :
  truthy (py_or (Order.latitude o) (Client.latitude (Order.client o))) = false \/
  truthy (py_or (Order.longitude o) (Client.longitude (Order.client o))) = false ->
  geocode_address env (Order.address o) = None ->
  fst (fst (assign_optimal_courier env o db))
  = queryset_first (filter Courier.available (couriers db)).
Proof.
  intros Hu Hg. unfold assign_optimal_courier.
  destruct (filter Courier.available (couriers db)) as [|a rest]; [reflexivity|].
  assert (Hb : negb (truthy (py_or (Order.latitude o) (Client.latitude (Order.client o))))
               || negb (truthy (py_or (Order.longitude o)
                                  (Client.longitude (Order.client o)))) = true).
  { destruct Hu as [-> | ->]; [reflexivity | apply orb_true_r]. }
  rewrite Hb, Hg. reflexivity.
Qed.

(** What [assign_optimal_courier] leaves behind: the tables are untouched,
    or the order got the geocoded coordinates and was saved; a courier it
    returns is an available row. *)
Lemma assign_optimal_courier_effect env o db :
  forall c o' db',
    assign_optimal_courier env o db = (c, o', db') ->
    ((o' = o /\ db' = db) \/
     (exists lat lon,
         o' = set_coordinates (Some lat) (Some lon) o /\
         db' = save_order o' db /\ c <> None)) /\
    (forall x, c = Some x -> In x (couriers db) /\ Courier.available x = true).
Proof.
  intros c o' db'. unfold assign_optimal_courier.
  destruct (filter Courier.available (couriers db)) as [|a rest] eqn:Ef.
  - intros H. injection H as <- <- <-. split; [left; split; reflexivity|].
    intros x Hx. discriminate.
  - assert (Hav : forall x, In x (a :: rest) ->
                            In x (couriers db) /\ Courier.available x = true).
    { intros x Hx. rewrite <- Ef in Hx. apply filter_In in Hx. exact Hx. }
    destruct (queryset_first_some a rest) as (f & Hf).
    assert (Hfirst : forall x, Some f = Some x ->
                               In x (couriers db) /\ Courier.available x = true).
    { intros x Hx. injection Hx as <-. apply Hav, queryset_first_In, Hf. }
    assert (Hnear : forall lat lon x,
               nearest_courier lat lon (a :: rest) None None = Some x ->
               In x (couriers db) /\ Courier.available x = true).
    { intros lat lon x Hx. apply Hav, (nearest_courier_In lat lon), Hx. }
    rewrite !Hf. clear Hf.
    set (avail := a :: rest) in *.
    destruct (negb (truthy (py_or (Order.latitude o) (Client.latitude (Order.client o))))
              || negb (truthy (py_or (Order.longitude o)
                                 (Client.longitude (Order.client o))))).
    + destruct (geocode_address env (Order.address o)) as [[lat lon]|].
      * destruct (float_truthy lat && float_truthy lon) eqn:Et.
        -- apply andb_true_iff in Et. destruct Et as [Et1 Et2].
           rewrite Et1, Et2. cbn [negb orb].
           destruct (nearest_courier lat lon avail None None) as [b|] eqn:En;
             intros H; injection H as <- <- <-.
           ++ split; [right; exists lat, lon; repeat split; discriminate|].
              intros x Hx. injection Hx as <-. exact (Hnear _ _ _ En).
           ++ split; [right; exists lat, lon; repeat split; discriminate|].
              exact Hfirst.
        -- assert (Hn : negb (float_truthy lat) || negb (float_truthy lon) = true).
           { destruct (float_truthy lat), (float_truthy lon); try reflexivity.
             discriminate. }
           rewrite Hn. intros H; injection H as <- <- <-.
           split; [left; split; reflexivity | exact Hfirst].
      * intros H; injection H as <- <- <-.
        split; [left; split; reflexivity | exact Hfirst].
    + destruct (py_or (Order.latitude o) (Client.latitude (Order.client o))) as [lat|];
        destruct (py_or (Order.longitude o) (Client.longitude (Order.client o)))
          as [lon|];
        try (intros H; injection H as <- <- <-;
             split; [left; split; reflexivity | exact Hfirst]).
      destruct (negb (float_truthy lat) || negb (float_truthy lon)).
      * intros H; injection H as <- <- <-.
        split; [left; split; reflexivity | exact Hfirst].
      * destruct (nearest_courier lat lon avail None None) as [b|] eqn:En;
          intros H; injection H as <- <- <-.
        -- split; [left; split; reflexivity|].
           intros x Hx. injection Hx as <-. exact (Hnear _ _ _ En).
        -- split; [left; split; reflexivity | exact Hfirst].
Qed.

(** The courier returned does not depend on the order table. *)
Lemma assign_optimal_courier_tables env o db db2 :
  couriers db2 = couriers db ->
  fst (fst (assign_optimal_courier env o db2))
  = fst (fst (assign_optimal_courier env o db)).
Proof.
  intros Hc. unfold assign_optimal_courier. rewrite Hc.
  destruct (filter Courier.available (couriers db)) as [|a rest]; [reflexivity|].
  destruct (negb (truthy (py_or (Order.latitude o) (Client.latitude (Order.client o))))
            || negb (truthy (py_or (Order.longitude o)
                               (Client.longitude (Order.client o))))).
  - destruct (geocode_address env (Order.address o)) as [[lat lon]|]; [|reflexivity].
    destruct (float_truthy lat && float_truthy lon);
      destruct (negb (float_truthy lat) || negb (float_truthy lon));
      try reflexivity;
      destruct (nearest_courier lat lon (a :: rest) None None); reflexivity.
  - destruct (py_or (Order.latitude o) (Client.latitude (Order.client o))) as [lat|];
      destruct (py_or (Order.longitude o) (Client.longitude (Order.client o)))
        as [lon|]; try reflexivity.
    destruct (negb (float_truthy lat) || negb (float_truthy lon)); [reflexivity|].
    destruct (nearest_courier lat lon (a :: rest) None None); reflexivity.
Qed.

Lemma Forall2_compose {A B C : Type} (R1 : A -> B -> Prop) (R2 : B -> C -> Prop)
    (R3 : A -> C -> Prop) (la : list A) (lb : list B) (lc : list C) :
  (forall x y z, R1 x y -> R2 y z -> R3 x z) ->
  Forall2 R1 la lb -> Forall2 R2 lb lc -> Forall2 R3 la lc.
Proof.
  intros H H1. revert lc. induction H1 as [|x y la lb Hxy _ IH]; intros lc H2.
  - inversion H2. constructor.
  - inversion H2 as [|? z ? lc' Hyz H2']; subst. constructor.
    + exact (H _ _ _ Hxy Hyz).
    + apply IH. exact H2'.
Qed.

Lemma Forall2_map_r {A B : Type} (R : A -> B -> Prop) (f : A -> B) (l : list A) :
  (forall x, In x l -> R x (f x)) -> Forall2 R l (map f l).
Proof.
  induction l as [|x l IH]; intros H; simpl; constructor.
  - apply H. left. reflexivity.
  - apply IH. intros y Hy. apply H. right. exact Hy.
Qed.

Lemma Forall2_refl {A : Type} (R : A -> A -> Prop) (l : list A) :
  (forall x, R x x) -> Forall2 R l l.
Proof. intros H. induction l; constructor; auto. Qed.

Lemma Forall2_impl {A B : Type} (R1 R2 : A -> B -> Prop) (la : list A) (lb : list B) :
  (forall x y, In x la -> R1 x y -> R2 x y) -> Forall2 R1 la lb -> Forall2 R2 la lb.
Proof.
  intros H H1. induction H1 as [|x y la lb Hxy _ IH]; constructor.
  - apply H; [left; reflexivity | exact Hxy].
  - apply IH. intros a b Ha. apply H. right. exact Ha.
Qed.

(** [order.save()] rewrites the rows that carry the order's key. *)
Lemma save_order_rows o db :
  Forall2 (fun r r' => (Order.id r <> Order.id o /\ r' = r) \/
                       (Order.id r = Order.id o /\ r' = o))
    (orders db) (orders (save_order o db)).
Proof.
  unfold save_order. cbn [orders]. apply Forall2_map_r. intros r _.
  destruct (Z.eqb_spec (Order.id r) (Order.id o)) as [E | E]; [right | left]; auto.
Qed.

Lemma get_available_courier_tables db db2 k :
  couriers db2 = couriers db ->
  get_available_courier db2 k = get_available_courier db k.
Proof. intros H. unfold get_available_courier. rewrite H. reflexivity. Qed.

Lemma get_available_courier_ok db k c :
  get_available_courier db k = Ok c ->
  In c (couriers db) /\ Courier.id c = k /\ Courier.available c = true.
Proof.
  unfold get_available_courier.
  destruct (find _ (couriers db)) as [x|] eqn:E; [|discriminate].
  intros H. injection H as <-. apply find_some in E. destruct E as [Hin Hb].
  apply andb_true_iff in Hb. destruct Hb as [Hid Ha].
  apply Z.eqb_eq in Hid. auto.
Qed.

Lemma get_available_courier_raise db k e :
  get_available_courier db k = Raise e ->
  e = DoesNotExist /\
  forall c, In c (couriers db) -> Courier.id c = k -> Courier.available c = false.
Proof.
  unfold get_available_courier.
  destruct (find _ (couriers db)) as [x|] eqn:E; [discriminate|].
  intros H. injection H as <-. split; [reflexivity|].
  intros c Hin Hid. pose proof (find_none _ _ E c Hin) as Hn. cbn beta in Hn.
  rewrite Hid, Z.eqb_refl in Hn. exact Hn.
Qed.

(** An available courier of the table resolves under its id. *)
Lemma get_available_courier_of_row db c :
  In c (couriers db) -> Courier.available c = true ->
  exists c', get_available_courier db (Courier.id c) = Ok c'.
Proof.
  intros Hin Ha. destruct (get_available_courier db (Courier.id c)) as [c'|e] eqn:E.
  - exists c'. reflexivity.
  - destruct (get_available_courier_raise _ _ _ E) as [_ Hn].
    rewrite (Hn c Hin eq_refl) in Ha. discriminate.
Qed.

Lemma order_key_tables env db db2 o :
  couriers db2 = couriers db -> order_key env db2 o = order_key env db o.
Proof.
  intros H. unfold order_key. destruct (Order.courier o); [reflexivity|].
  rewrite (assign_optimal_courier_tables env o db db2 H). reflexivity.
Qed.

(** An order without a courier is filed under a courier that resolves. *)
Lemma order_key_resolves env db o k :
  Order.courier o = None -> order_key env db o = Some k ->
  exists c, get_available_courier db k = Ok c.
Proof.
  intros Hc. unfold order_key. rewrite Hc.
  destruct (assign_optimal_courier env o db) as [[c o'] db'] eqn:E. cbn [fst].
  destruct c as [c|]; [|discriminate]. cbn [option_map]. intros H. injection H as <-.
  destruct (assign_optimal_courier_effect env o db _ _ _ E) as [_ Hav].
  destruct (Hav c eq_refl) as [Hin Ha].
  exact (get_available_courier_of_row db c Hin Ha).
Qed.

(** *** The grouping dict *)

Lemma group_add_member grouped k0 o k os x :
  In (k, os) (group_add grouped k0 o) -> In x os ->
  (exists os0, In (k, os0) grouped /\ In x os0) \/ (k = k0 /\ x = o).
Proof.
  induction grouped as [|[k' os'] rest IH]; cbn [group_add]; intros Hin Hx.
  - destruct Hin as [E | []]. injection E as <- <-.
    destruct Hx as [<- | []]. right. split; reflexivity.
  - destruct (Z.eqb_spec k' k0) as [E | E].
    + destruct Hin as [E' | Hin].
      * injection E' as <- <-. apply in_app_or in Hx. destruct Hx as [Hx | [<- | []]].
        -- left. exists os'. split; [left; reflexivity | exact Hx].
        -- right. split; [exact E | reflexivity].
      * left. exists os. split; [right; exact Hin | exact Hx].
    + destruct Hin as [E' | Hin].
      * injection E' as <- <-. left. exists os'. split; [left; reflexivity | exact Hx].
      * destruct (IH Hin Hx) as [(os0 & H0 & Hx0) | H0].
        -- left. exists os0. split; [right; exact H0 | exact Hx0].
        -- right. exact H0.
Qed.

Lemma group_add_filed grouped k0 o :
  exists os, In (k0, os) (group_add grouped k0 o) /\ In o os.
Proof.
  induction grouped as [|[k' os'] rest IH]; cbn [group_add].
  - exists [o]. split; left; reflexivity.
  - destruct (Z.eqb_spec k' k0) as [E | E].
    + subst k'. exists (os' ++ [o])%list. split; [left; reflexivity|].
      apply in_or_app. right. left. reflexivity.
    + destruct IH as (os & Hin & Ho). exists os. split; [right; exact Hin | exact Ho].
Qed.

Lemma group_add_keeps grouped k0 o k os0 :
  In (k, os0) grouped ->
  exists os, In (k, os) (group_add grouped k0 o) /\ incl os0 os.
Proof.
  induction grouped as [|[k' os'] rest IH]; cbn [group_add]; intros Hin.
  - destruct Hin.
  - destruct (Z.eqb_spec k' k0) as [E | E].
    + destruct Hin as [E' | Hin].
      * injection E' as <- <-. exists (os' ++ [o])%list.
        split; [left; reflexivity | apply incl_appl, incl_refl].
      * exists os0. split; [right; exact Hin | apply incl_refl].
    + destruct Hin as [E' | Hin].
      * injection E' as <- <-. exists os'. split; [left; reflexivity | apply incl_refl].
      * destruct (IH Hin) as (os & H1 & H2). exists os. split; [right; exact H1 | exact H2].
Qed.

Lemma group_add_keys grouped k0 o k :
  In k (map fst (group_add grouped k0 o)) <-> In k (map fst grouped) \/ k = k0.
Proof.
  induction grouped as [|[k' os'] rest IH]; cbn [group_add map fst In].
  - split; [intros [E | []]; right; auto | intros [[] | E]; left; auto].
  - destruct (Z.eqb_spec k' k0) as [E | E]; cbn [map fst In].
    + subst k'. split; [intros [H | H]; auto | intros [[H | H] | H]; auto].
    + rewrite IH. split; [intros [H | [H | H]]; auto | intros [[H | H] | H]; auto].
Qed.

Lemma group_add_keys_NoDup grouped k0 o :
  NoDup (map fst grouped) -> NoDup (map fst (group_add grouped k0 o)).
Proof.
  induction grouped as [|[k' os'] rest IH]; cbn [group_add map fst]; intros H.
  - constructor; [intros [] | constructor].
  - inversion H as [|? ? Hnin Hnd]; subst.
    destruct (Z.eqb_spec k' k0) as [E | E]; cbn [map fst].
    + constructor; assumption.
    + constructor; [|apply IH; exact Hnd].
      intros Hin. apply group_add_keys in Hin. destruct Hin as [Hin | Hin]; auto.
Qed.

Lemma group_add_nonempty grouped k0 o :
  (forall k os, In (k, os) grouped -> os <> []) ->
  forall k os, In (k, os) (group_add grouped k0 o) -> os <> [].
Proof.
  induction grouped as [|[k' os'] rest IH]; cbn [group_add]; intros H k os Hin.
  - destruct Hin as [E | []]. injection E as _ <-. discriminate.
  - destruct (Z.eqb_spec k' k0) as [E | E].
    + destruct Hin as [E' | Hin].
      * injection E' as _ <-. destruct os'; discriminate.
      * exact (H k os (or_intror Hin)).
    + destruct Hin as [E' | Hin].
      * injection E' as <- <-. exact (H k' os' (or_introl eq_refl)).
      * exact (IH (fun k os Hk => H k os (or_intror Hk)) k os Hin).
Qed.

Lemma group_add_all grouped k0 o :
  Permutation (all_grouped (group_add grouped k0 o)) (o :: all_grouped grouped).
Proof.
  unfold all_grouped.
  induction grouped as [|[k' os'] rest IH]; cbn [group_add map snd List.concat].
  - rewrite ?app_nil_r. apply Permutation_refl.
  - destruct (Z.eqb_spec k' k0) as [E | E]; cbn [map snd List.concat].
    + rewrite <- app_assoc. cbn [app].
      apply Permutation_sym, Permutation_middle.
    + eapply Permutation_trans; [apply Permutation_app_head; exact IH|].
      apply Permutation_sym, Permutation_middle.
Qed.

(** One turn of the grouping loop: the courier found for an order, the
    order object and the tables after it. *)
Lemma group_step env o db c o' db1 :
  match Order.courier o with
  | Some c0 => (Some c0, o, db)
  | None => assign_optimal_courier env o db
  end = (c, o', db1) ->
  option_map Courier.id c = order_key env db o /\
  couriers db1 = couriers db /\
  delivery_routes db1 = delivery_routes db /\
  route_orders db1 = route_orders db /\
  ((o' = o /\ db1 = db) \/
   (Order.courier o = None /\ c <> None /\
    exists lat lon,
      o' = set_coordinates (Some lat) (Some lon) o /\ db1 = save_order o' db)).
Proof.
  unfold order_key. destruct (Order.courier o) as [c0|] eqn:Ec.
  - intros H. injection H as <- <- <-. repeat split. left. split; reflexivity.
  - intros H. rewrite H. cbn [fst]. split; [reflexivity|].
    destruct (assign_optimal_courier_effect env o db _ _ _ H) as [Heff _].
    destruct Heff as [[-> ->] | (lat & lon & -> & -> & Hc)].
    + repeat split. left. split; reflexivity.
    + repeat split. right. split; [reflexivity|]. split; [exact Hc|].
      exists lat, lon. split; reflexivity.
Qed.

Lemma geocoded_from_more env db p pending r r' :
  geocoded_from env db pending r r' -> geocoded_from env db (p :: pending) r r'.
Proof.
  intros [E | (q & lat & lon & Hin & H)]; [left; exact E|].
  right. exists q, lat, lon. split; [right; exact Hin | exact H].
Qed.

Lemma filed_from_more env db p pending k o :
  filed_from env db pending k o -> filed_from env db (p :: pending) k o.
Proof.
  intros (q & Hin & H). exists q. split; [right; exact Hin | exact H].
Qed.

(** The grouping loop: the tables other than the orders are untouched;
    the rows are as they were or geocoded; the groups hold what they held
    and the pending orders that have a key, under that key. *)
Lemma group_loop_spec env pending :
  forall grouped db grouped' db',
    group_loop env pending grouped db = (grouped', db') ->
    couriers db' = couriers db /\
    delivery_routes db' = delivery_routes db /\
    route_orders db' = route_orders db /\
    Forall2 (geocoded_from env db pending) (orders db) (orders db') /\
    (forall k os o, In (k, os) grouped' -> In o os ->
       (exists os0, In (k, os0) grouped /\ In o os0) \/
       filed_from env db pending k o) /\
    (forall p k, In p pending -> order_key env db p = Some k ->
       exists os o, In (k, os) grouped' /\ In o os /\ Order.id o = Order.id p) /\
    (forall k os0, In (k, os0) grouped ->
       exists os, In (k, os) grouped' /\ incl os0 os) /\
    (forall k, In k (map fst grouped') ->
       In k (map fst grouped) \/ exists p, In p pending /\ order_key env db p = Some k) /\
    (NoDup (map fst grouped) -> NoDup (map fst grouped')) /\
    ((forall k os, In (k, os) grouped -> os <> []) ->
     forall k os, In (k, os) grouped' -> os <> []) /\
    Permutation (map Order.id (all_grouped grouped'))
      (map Order.id (all_grouped grouped)
       ++ map Order.id (filter (has_key env db) pending)).
Proof.
  induction pending as [|p pending IH]; intros grouped db grouped' db' Hrun.
  - cbn [group_loop] in Hrun. injection Hrun as <- <-.
    repeat split; try reflexivity.
    + apply Forall2_refl. intros r. left. reflexivity.
    + intros k os o Hin Ho. left. exists os. split; assumption.
    + intros p k [].
    + intros k os0 Hin. exists os0. split; [exact Hin | apply incl_refl].
    + intros k Hk. left. exact Hk.
    + intros H. exact H.
    + intros H. exact H.
    + cbn [filter map]. rewrite app_nil_r. apply Permutation_refl.
  - cbn [group_loop] in Hrun.
    destruct (match Order.courier p with
              | Some c0 => (Some c0, p, db)
              | None => assign_optimal_courier env p db
              end) as [[c o'] db1] eqn:Estep.
    destruct (group_step env p db c o' db1 Estep)
      as (Hkey & Hc1 & Hr1 & Hs1 & Heff).
    assert (Hid : Order.id o' = Order.id p).
    { destruct Heff as [[-> _] | (_ & _ & lat & lon & -> & _)]; reflexivity. }
    assert (Hrows1 : Forall2 (geocoded_from env db (p :: pending))
                       (orders db) (orders db1)).
    { destruct Heff as [[_ ->] | (Hpc & Hcn & lat & lon & Ho' & ->)].
      - apply Forall2_refl. intros r. left. reflexivity.
      - eapply Forall2_impl; [|apply save_order_rows].
        intros r r' _ [[_ E] | [E1 E2]]; [left; exact E|].
        right. exists p, lat, lon. split; [left; reflexivity|].
        split; [exact Hpc|]. split.
        + unfold has_key. rewrite <- Hkey. destruct c; [reflexivity | contradiction].
        + split; [congruence | congruence]. }
    assert (Hkeys1 : forall q, order_key env db1 q = order_key env db q)
      by (intros q; apply order_key_tables; exact Hc1).
    assert (Hhas1 : forall q, has_key env db1 q = has_key env db q)
      by (intros q; unfold has_key; rewrite Hkeys1; reflexivity).
    assert (Hgeo : forall r r', geocoded_from env db1 pending r r' ->
                                geocoded_from env db (p :: pending) r r').
    { intros r r' [E | (q & lat & lon & Hin & Hqc & Hqk & H)]; [left; exact E|].
      right. exists q, lat, lon. split; [right; exact Hin|].
      split; [exact Hqc|]. rewrite <- Hhas1. split; [exact Hqk | exact H]. }
    assert (Hfiled : forall k o, filed_from env db1 pending k o ->
                                 filed_from env db (p :: pending) k o).
    { intros k o (q & Hin & Hqk & H). exists q. split; [right; exact Hin|].
      rewrite <- Hkeys1. split; assumption. }
    assert (Hcompose : Forall2 (geocoded_from env db1 pending) (orders db1) (orders db') ->
                       Forall2 (geocoded_from env db (p :: pending)) (orders db) (orders db')).
    { intros H2. eapply Forall2_compose; [|exact Hrows1|exact H2].
      intros x y z Hxy Hyz. apply Hgeo in Hyz.
      destruct Hyz as [-> | (q & lat & lon & Hin & Hqc & Hqk & Hqid & ->)];
        [exact Hxy|].
      right. exists q, lat, lon. repeat split; try assumption.
      destruct Hxy as [-> | (q' & lat' & lon' & _ & _ & _ & Hq'id & ->)];
        [exact Hqid | rewrite Hqid; exact Hq'id]. }
    destruct c as [c|].
    + assert (Hk : order_key env db p = Some (Courier.id c))
        by (rewrite <- Hkey; reflexivity).
      assert (Hfp : filed_from env db (p :: pending) (Courier.id c) o').
      { exists p. split; [left; reflexivity|]. split; [exact Hk|].
        destruct Heff as [[-> _] | (Hpc & _ & lat & lon & -> & _)];
          [left; reflexivity | right; split; [exact Hpc | exists lat, lon; reflexivity]]. }
      destruct (IH _ _ _ _ Hrun)
        as (Hc & Hr & Hs & Hrows & M1 & M2 & M3 & M4 & M5 & M6 & M7).
      split; [congruence|]. split; [congruence|]. split; [congruence|].
      split; [apply Hcompose; exact Hrows|].
      split; [|split; [|split; [|split; [|split; [|split]]]]].
      * intros k os o Hin Ho.
        destruct (M1 k os o Hin Ho) as [(os0 & H0 & Ho0) | Hf];
          [|right; apply Hfiled; exact Hf].
        destruct (group_add_member _ _ _ _ _ _ H0 Ho0) as [H | [-> ->]];
          [left; exact H | right; exact Hfp].
      * intros q k [<- | Hin] Hqk.
        -- rewrite Hk in Hqk. injection Hqk as <-.
           destruct (group_add_filed grouped (Courier.id c) o') as (os1 & H1 & Ho1).
           destruct (M3 _ _ H1) as (os & Hos & Hincl).
           exists os, o'. split; [exact Hos|]. split; [apply Hincl; exact Ho1 | exact Hid].
        -- apply (M2 q k Hin). rewrite Hkeys1. exact Hqk.
      * intros k os0 Hin.
        destruct (group_add_keeps grouped (Courier.id c) o' k os0 Hin) as (os1 & H1 & Hi1).
        destruct (M3 _ _ H1) as (os & Hos & Hincl).
        exists os. split; [exact Hos|]. eapply incl_tran; eassumption.
      * intros k Hin. destruct (M4 k Hin) as [H | (q & Hq & Hqk)].
        -- apply group_add_keys in H. destruct H as [H | ->]; [left; exact H|].
           right. exists p. split; [left; reflexivity | exact Hk].
        -- right. exists q. split; [right; exact Hq|]. rewrite <- Hkeys1. exact Hqk.
      * intros Hnd. apply M5, group_add_keys_NoDup, Hnd.
      * intros Hne. apply M6, group_add_nonempty, Hne.
      * eapply Permutation_trans; [exact M7|].
        cbn [filter]. unfold has_key at 2. rewrite Hk. cbn [map].
        rewrite (filter_ext _ _ Hhas1).
        eapply Permutation_trans;
          [apply Permutation_app_tail, Permutation_map, group_add_all|].
        cbn [map]. rewrite Hid. cbn [app]. apply Permutation_middle.
    + assert (Hk : order_key env db p = None) by (rewrite <- Hkey; reflexivity).
      destruct (IH _ _ _ _ Hrun)
        as (Hc & Hr & Hs & Hrows & M1 & M2 & M3 & M4 & M5 & M6 & M7).
      split; [congruence|]. split; [congruence|]. split; [congruence|].
      split; [apply Hcompose; exact Hrows|].
      split; [|split; [|split; [|split; [|split; [|split]]]]].
      * intros k os o Hin Ho.
        destruct (M1 k os o Hin Ho) as [H | Hf];
          [left; exact H | right; apply Hfiled; exact Hf].
      * intros q k [<- | Hin] Hqk; [congruence|].
        apply (M2 q k Hin). rewrite Hkeys1. exact Hqk.
      * exact M3.
      * intros k Hin. destruct (M4 k Hin) as [H | (q & Hq & Hqk)]; [left; exact H|].
        right. exists q. split; [right; exact Hq|]. rewrite <- Hkeys1. exact Hqk.
      * exact M5.
      * exact M6.
      * eapply Permutation_trans; [exact M7|].
        cbn [filter]. unfold has_key at 2. rewrite Hk.
        rewrite (filter_ext _ _ Hhas1). apply Permutation_refl.
Qed.

(** *** The loop over the groups *)

Lemma assign_orders_cons env c o rest db :
  assign_orders env c (o :: rest) db
  = assign_orders env c rest
      (save_order (assigned env c o) (save_order (assigned env c o) db)).
Proof. reflexivity. Qed.

Lemma assign_orders_spec env c os :
  forall db,
    couriers (assign_orders env c os db) = couriers db /\
    delivery_routes (assign_orders env c os db) = delivery_routes db /\
    route_orders (assign_orders env c os db) = route_orders db /\
    Forall2 (fun r r' =>
               (r' = r /\ forall o, In o os -> Order.id o <> Order.id r) \/
               (exists o, In o os /\ Order.id o = Order.id r /\ r' = assigned env c o))
      (orders db) (orders (assign_orders env c os db)).
Proof.
  induction os as [|o os IH]; intros db.
  - cbn [assign_orders]. repeat split.
    apply Forall2_refl. intros r. left. split; [reflexivity | intros o []].
  - rewrite assign_orders_cons.
    set (a := assigned env c o).
    destruct (IH (save_order a (save_order a db))) as (Hc & Hr & Hs & Hrows).
    split; [exact Hc|]. split; [exact Hr|]. split; [exact Hs|].
    assert (Ha : Order.id a = Order.id o) by reflexivity.
    assert (Hstep : Forall2
                      (fun x z => (Order.id x <> Order.id o /\ z = x) \/
                                  (Order.id x = Order.id o /\ z = a))
                      (orders db) (orders (save_order a (save_order a db)))).
    { eapply Forall2_compose;
        [|apply (save_order_rows a db)|apply (save_order_rows a (save_order a db))].
      cbn beta. intros x y z Hxy Hyz. rewrite Ha in *.
      destruct Hxy as [[Hx ->] | [Hx ->]], Hyz as [[Hy ->] | [Hy ->]]; auto;
        try congruence. }
    eapply Forall2_compose; [|exact Hstep|exact Hrows].
    cbn beta. intros x y z Hxy Hyz.
    destruct Hyz as [[-> Hno] | (o2 & Hin & Hid & ->)].
    + destruct Hxy as [[Hx ->] | [Hx ->]].
      * left. split; [reflexivity|]. intros o' [<- | Hin]; [congruence | apply Hno, Hin].
      * right. exists o. split; [left; reflexivity|]. split; [congruence | reflexivity].
    + right. exists o2. split; [right; exact Hin|]. split; [|reflexivity].
      destruct Hxy as [[Hx ->] | [Hx ->]]; [exact Hid|].
      rewrite Hid. symmetry. exact Hx.
Qed.

Lemma optimize_route_orders_In env courier first_order others e :
  In e (route (optimize_route env courier (first_order :: others))) ->
  In (order e) (first_order :: others).
Proof.
  intros He.
  destruct (optimize_route_entries env courier first_order others) as (_ & Hord & _).
  assert (Hin : In (order e)
                  (map order (route (optimize_route env courier (first_order :: others)))))
    by (apply in_map; exact He).
  rewrite Hord in Hin. apply in_map_iff in Hin. destruct Hin as (idx & <- & _).
  destruct (nth_in_or_default (idx - 1) (first_order :: others) first_order) as [H | H].
  - exact H.
  - rewrite H. left. reflexivity.
Qed.

Lemma routed_from_tables env db db2 grouped r r' :
  couriers db2 = couriers db ->
  routed_from env db2 grouped r r' -> routed_from env db grouped r r'.
Proof.
  intros Hc [[E H] | (k & os & c & o & Hin & Hg & H)].
  - left. split; [exact E|]. intros k os c o Hin Hg.
    apply (H k os c o Hin). rewrite (get_available_courier_tables _ _ _ Hc). exact Hg.
  - right. exists k, os, c, o. split; [exact Hin|].
    rewrite <- (get_available_courier_tables _ _ _ Hc). split; [exact Hg | exact H].
Qed.

(** The loop over the groups returns: it adds one route per group whose
    courier resolves, for that courier, and the stops of these routes;
    every order of such a group is saved assigned to that courier, and no
    other row changes. *)
Lemma routes_loop_spec env grouped :
  forall routes db,
    (forall k os, In (k, os) grouped -> os <> []) ->
    exists new db' stops,
      routes_loop env grouped routes db = (Ok (routes ++ new)%list, db') /\
      couriers db' = couriers db /\
      delivery_routes db' = (delivery_routes db ++ new)%list /\
      route_orders db' = (route_orders db ++ stops)%list /\
      map DeliveryRoute.courier new = resolved_couriers db grouped /\
      (forall s, In s stops ->
         exists k os c,
           In (k, os) grouped /\ get_available_courier db k = Ok c /\
           In (RouteOrder.order s) os) /\
      Forall2 (routed_from env db grouped) (orders db) (orders db').
Proof.
  induction grouped as [|[k os] rest IH]; intros routes db Hne.
  - exists [], db, []. cbn [routes_loop]. rewrite !app_nil_r.
    repeat split; try reflexivity.
    + intros s [].
    + apply Forall2_refl. intros r. left. split; [reflexivity|].
      intros k os c o [].
  - assert (Hne' : forall k os, In (k, os) rest -> os <> [])
      by (intros k' os' H; apply (Hne k' os'); right; exact H).
    cbn [routes_loop resolved_couriers].
    destruct (get_available_courier db k) as [c|e] eqn:Eg.
    + destruct os as [|first_order others];
        [exfalso; apply (Hne k []); [left; reflexivity | reflexivity]|].
      destruct (create_delivery_route_nonempty env c first_order others None db)
        as (new_route & Hcreate & Hcourier).
      cbv zeta in Hcreate. rewrite Hcreate.
      set (os := first_order :: others) in *.
      set (db1 := {| couriers := couriers db; orders := orders db;
                     delivery_routes := (delivery_routes db ++ [new_route])%list;
                     route_orders :=
                       (route_orders db ++
                        map (new_route_order (DeliveryRoute.id new_route))
                            (route (optimize_route env c os)))%list |}).
      destruct (assign_orders_spec env c os db1) as (Hc2 & Hr2 & Hs2 & Hrows2).
      set (db2 := assign_orders env c os db1) in *.
      destruct (IH (routes ++ [new_route])%list db2 Hne')
        as (new & db' & stops & Hrun & Hc & Hr & Hs & Hmap & Hstops & Hrows).
      assert (Hc12 : couriers db2 = couriers db) by (rewrite Hc2; reflexivity).
      exists (new_route :: new), db',
        (map (new_route_order (DeliveryRoute.id new_route))
             (route (optimize_route env c os)) ++ stops)%list.
      split; [rewrite Hrun, <- app_assoc; reflexivity|].
      split; [congruence|].
      split; [rewrite Hr, Hr2; cbn [delivery_routes db1];
              rewrite <- app_assoc; reflexivity|].
      split; [rewrite Hs, Hs2; cbn [route_orders db1];
              rewrite <- app_assoc; reflexivity|].
      split; [cbn [map]; rewrite Hcourier, Hmap; f_equal;
              clear -Hc12; induction rest as [|[k' os'] rest IHr];
              [reflexivity|];
              cbn [resolved_couriers];
              rewrite (get_available_courier_tables _ _ _ Hc12), IHr; reflexivity|].
      split.
      * intros s Hs'. apply in_app_or in Hs'. destruct Hs' as [Hs' | Hs'].
        -- apply in_map_iff in Hs'. destruct Hs' as (e & <- & He).
           exists k, os, c. split; [left; reflexivity|]. split; [exact Eg|].
           cbn [new_route_order RouteOrder.order].
           apply optimize_route_orders_In in He. exact He.
        -- destruct (Hstops s Hs') as (k' & os' & c' & Hin & Hg & Ho).
           exists k', os', c'. split; [right; exact Hin|].
           rewrite <- (get_available_courier_tables _ _ _ Hc12). split; assumption.
      * eapply Forall2_compose; [|exact Hrows2|exact Hrows].
        cbn beta. intros x y z Hxy Hyz.
        apply (routed_from_tables env db db2 rest _ _ Hc12) in Hyz.
        destruct Hyz as [[-> Hno] | (k' & os' & c' & o' & Hin & Hg & Ho & Hid & ->)].
        -- destruct Hxy as [[-> Hno1] | (o & Ho & Hid & ->)].
           ++ left. split; [reflexivity|].
              intros k' os' c' o' [E | Hin] Hg Ho.
              ** injection E as <- <-. apply Hno1. exact Ho.
              ** apply (Hno k' os' c' o' Hin Hg Ho).
           ++ right. exists k, os, c, o. split; [left; reflexivity|].
              repeat split; assumption.
        -- right. exists k', os', c', o'. split; [right; exact Hin|].
           split; [exact Hg|]. split; [exact Ho|]. split; [|reflexivity].
           destruct Hxy as [[-> _] | (o & _ & Hid1 & ->)]; [exact Hid|].
           rewrite Hid. exact Hid1.
    + destruct (get_available_courier_raise _ _ _ Eg) as [-> _].
      destruct (IH routes db Hne')
        as (new & db' & stops & Hrun & Hc & Hr & Hs & Hmap & Hstops & Hrows).
      exists new, db', stops.
      split; [exact Hrun|]. split; [exact Hc|]. split; [exact Hr|].
      split; [exact Hs|]. split; [exact Hmap|]. split.
      * intros s Hs'. destruct (Hstops s Hs') as (k' & os' & c' & Hin & Hg & Ho).
        exists k', os', c'. split; [right; exact Hin | split; assumption].
      * eapply Forall2_impl; [|exact Hrows].
        intros x y _ [[-> Hno] | (k' & os' & c' & o' & Hin & H)].
        -- left. split; [reflexivity|].
           intros k' os' c' o' [E | Hin] Hg Ho.
           ++ injection E as <- <-. congruence.
           ++ apply (Hno k' os' c' o' Hin Hg Ho).
        -- right. exists k', os', c', o'. split; [right; exact Hin | exact H].
Qed.

(** *** A whole run *)

Lemma NoDup_map_eq {A B : Type} (f : A -> B) (l : list A) (x y : A) :
  NoDup (map f l) -> In x l -> In y l -> f x = f y -> x = y.
Proof.
  induction l as [|a l IH]; cbn [map]; intros Hnd Hx Hy E; [destruct Hx|].
  inversion Hnd as [|? ? Hnin Hnd']; subst.
  destruct Hx as [<- | Hx], Hy as [<- | Hy].
  - reflexivity.
  - exfalso. apply Hnin. rewrite E. apply in_map. exact Hy.
  - exfalso. apply Hnin. rewrite <- E. apply in_map. exact Hx.
  - exact (IH Hnd' Hx Hy E).
Qed.

Lemma filed_from_id env db pending k o :
  filed_from env db pending k o ->
  exists p, In p pending /\ order_key env db p = Some k /\
            Order.id o = Order.id p /\
            (o = p \/ exists lat lon, o = set_coordinates (Some lat) (Some lon) p).
Proof.
  intros (p & Hin & Hk & [-> | (_ & lat & lon & ->)]).
  - exists p. repeat split; try assumption. left. reflexivity.
  - exists p. repeat split; try assumption. right. exists lat, lon. reflexivity.
Qed.

Lemma resolved_couriers_In db grouped c :
  In c (resolved_couriers db grouped) ->
  exists k os, In (k, os) grouped /\ get_available_courier db k = Ok c.
Proof.
  induction grouped as [|[k os] rest IH]; cbn [resolved_couriers]; intros H.
  - destruct H.
  - destruct (get_available_courier db k) as [c'|e] eqn:E.
    + destruct H as [<- | H].
      * exists k, os. split; [left; reflexivity | exact E].
      * destruct (IH H) as (k' & os' & Hin & Hg).
        exists k', os'. split; [right; exact Hin | exact Hg].
    + destruct (IH H) as (k' & os' & Hin & Hg).
      exists k', os'. split; [right; exact Hin | exact Hg].
Qed.

Lemma resolved_couriers_tables db db2 grouped :
  couriers db2 = couriers db ->
  resolved_couriers db2 grouped = resolved_couriers db grouped.
Proof.
  intros H. induction grouped as [|[k os] rest IH]; [reflexivity|].
  cbn [resolved_couriers].
  rewrite (get_available_courier_tables _ _ _ H), IH. reflexivity.
Qed.

(** A run of [create_optimized_routes_for_day] on tables whose orders have
    distinct keys. *)
Lemma run_spec env date db :
  NoDup (map Order.id (orders db)) ->
  let d := run_date env date in
  let pending := filter (is_pending d) (orders db) in
  let grouped := fst (_group_orders_for_routing env pending db) in
  exists routes db' stops,
    create_optimized_routes_for_day env date db = (Ok routes, db') /\
    couriers db' = couriers db /\
    delivery_routes db' = (delivery_routes db ++ routes)%list /\
    route_orders db' = (route_orders db ++ stops)%list /\
    map DeliveryRoute.courier routes = resolved_couriers db grouped /\
    NoDup (map fst grouped) /\
    (forall k, In k (map fst grouped) <->
               exists p, In p pending /\ order_key env db p = Some k) /\
    (forall k os o, In (k, os) grouped -> In o os -> filed_from env db pending k o) /\
    (forall s, In s stops ->
       exists p k c,
         In p pending /\ order_key env db p = Some k /\
         get_available_courier db k = Ok c /\
         Order.id (RouteOrder.order s) = Order.id p) /\
    Forall2 (final_row env db d) (orders db) (orders db').
Proof.
  intros Hnd d pending grouped.
  unfold create_optimized_routes_for_day. fold (run_date env date). fold d. fold pending.
  unfold grouped, _group_orders_for_routing.
  destruct (group_loop env pending [] db) as [g dbg] eqn:Eg. cbn [fst].
  destruct (group_loop_spec env pending [] db g dbg Eg)
    as (Hc & Hr & Hs & Hrows & M1 & M2 & _ & M4 & M5 & M6 & _).
  assert (Hmem : forall k os o, In (k, os) g -> In o os ->
                                filed_from env db pending k o).
  { intros k os o Hin Ho. destruct (M1 k os o Hin Ho) as [(os0 & [] & _) | H].
    exact H. }
  assert (Hpend : forall p, In p pending -> In p (orders db) /\ is_pending d p = true)
    by (intros p Hp; apply filter_In in Hp; exact Hp).
  destruct (routes_loop_spec env g [] dbg) as
    (new & db' & stops & Hrun & Hc' & Hr' & Hs' & Hmap & Hstops & Hrows').
  { apply M6. intros k os []. }
  cbn [app] in Hrun.
  exists new, db', stops.
  split; [exact Hrun|]. split; [congruence|]. split; [congruence|].
  split; [congruence|].
  split; [rewrite Hmap; apply resolved_couriers_tables; exact Hc|].
  split; [apply M5; constructor|].
  split.
  { intros k. split.
    - intros Hk. destruct (M4 k Hk) as [[] | H]. exact H.
    - intros (p & Hp & Hk). destruct (M2 p k Hp Hk) as (os & o & Hin & _).
      apply in_map_iff. exists (k, os). split; [reflexivity | exact Hin]. }
  split; [exact Hmem|].
  split.
  { intros s Hs0. destruct (Hstops s Hs0) as (k & os & c & Hin & Hg & Ho).
    destruct (filed_from_id _ _ _ _ _ (Hmem k os _ Hin Ho)) as (p & Hp & Hk & Hid & _).
    exists p, k, c. split; [exact Hp|]. split; [exact Hk|].
    rewrite <- (get_available_courier_tables _ _ _ Hc). split; [exact Hg | exact Hid]. }
  assert (Hboth : Forall2
                    (fun r r' => exists rg, geocoded_from env db pending r rg /\
                                            routed_from env dbg g rg r')
                    (orders db) (orders db')).
  { eapply Forall2_compose; [|exact Hrows|exact Hrows'].
    cbn beta. intros x y z Hxy Hyz. exists y. split; assumption. }
  eapply Forall2_impl; [|exact Hboth].
  cbn beta. intros r r' Hr0 (rg0 & Hgeo & Hrouted).
  apply (routed_from_tables env db dbg g _ _ Hc) in Hrouted.
  (* the row after the grouping *)
  assert (Hg_id : exists rg, Order.id rg = Order.id r /\
                  geocoded_from env db pending r rg /\ routed_from env db g rg r').
  { exists rg0. split; [|split; assumption].
    destruct Hgeo as [-> | (p & lat & lon & _ & _ & _ & Hid & ->)];
      [reflexivity | exact Hid]. }
  clear Hgeo Hrouted. destruct Hg_id as (rg & Hidg & Hgeo & Hrouted).
  assert (Hsame : forall p, In p pending -> Order.id p = Order.id r -> p = r).
  { intros p Hp Hid. apply (NoDup_map_eq Order.id (orders db)); try assumption.
    apply Hpend, Hp. }
  assert (Hgeo' : rg = r \/
                  (In r pending /\ Order.courier r = None /\ has_key env db r = true /\
                   exists lat lon, rg = set_coordinates (Some lat) (Some lon) r)).
  { destruct Hgeo as [E | (p & lat & lon & Hp & Hpc & Hpk & Hid & E)]; [left; exact E|].
    right. pose proof (Hsame p Hp Hid) as <-.
    repeat split; try assumption. exists lat, lon. exact E. }
  clear Hgeo. unfold final_row.
  destruct Hrouted as [[-> Hno] | (k2 & os2 & c2 & o2 & Hin2 & Hg2 & Ho2 & Hid2 & ->)].
  - split; [exact Hidg|].
    destruct (is_pending d r) eqn:Ep.
    + destruct (order_key env db r) as [k|] eqn:Ek.
      * destruct (get_available_courier db k) as [c|e] eqn:Egk.
        -- exfalso.
           assert (Hp : In r pending) by (apply filter_In; split; assumption).
           destruct (M2 r k Hp Ek) as (os & o & Hin & Ho & Hid).
           apply (Hno k os c o Hin Egk Ho). congruence.
        -- destruct Hgeo' as [E | (_ & Hrc & _ & _)]; [exact E|].
           destruct (order_key_resolves env db r k Hrc Ek) as (c & Hc0). congruence.
      * destruct Hgeo' as [E | (_ & _ & Hk & _)]; [exact E|].
        unfold has_key in Hk. rewrite Ek in Hk. discriminate.
    + destruct Hgeo' as [E | (Hp & _)]; [exact E|].
      apply Hpend in Hp. destruct Hp as [_ Hp]. congruence.
  - split; [cbn; congruence|].
    destruct (filed_from_id _ _ _ _ _ (Hmem k2 os2 o2 Hin2 Ho2))
      as (p2 & Hp2 & Hk2 & Hidp & Ho2p).
    assert (E : p2 = r) by (apply Hsame; [exact Hp2 | congruence]).
    subst p2. destruct (Hpend r Hp2) as [_ Ep]. rewrite Ep, Hk2, Hg2.
    exists o2. split; [reflexivity | exact Ho2p].
Qed.

Lemma Forall2_In_l {A B : Type} (R : A -> B -> Prop) (la : list A) (lb : list B) x :
  Forall2 R la lb -> In x la -> exists y, In y lb /\ R x y.
Proof.
  induction 1 as [|a b la lb Hab _ IH]; intros Hx; [destruct Hx|].
  destruct Hx as [<- | Hx].
  - exists b. split; [left; reflexivity | exact Hab].
  - destruct (IH Hx) as (y & Hy & Hr). exists y. split; [right; exact Hy | exact Hr].
Qed.

Lemma Forall2_In_r {A B : Type} (R : A -> B -> Prop) (la : list A) (lb : list B) y :
  Forall2 R la lb -> In y lb -> exists x, In x la /\ R x y.
Proof.
  induction 1 as [|a b la lb Hab _ IH]; intros Hy; [destruct Hy|].
  destruct Hy as [<- | Hy].
  - exists a. split; [left; reflexivity | exact Hab].
  - destruct (IH Hy) as (x & Hx & Hr). exists x. split; [right; exact Hx | exact Hr].
Qed.

(** C10. When the courier id of a group resolves to no available courier,
    the run skips the group: none of the routes it creates is for that
    courier, none of the stops it creates holds an order of the group, and
    every order of the group is a row that the run leaves as it was (its
    status, courier and estimated delivery time with it). *)
Theorem skipped_group_untouched env date db courier_id group :
  NoDup (map Order.id (orders db)) ->
  In (courier_id, group)
     (fst (_group_orders_for_routing env
             (filter (is_pending (run_date env date)) (orders db)) db)) ->
  get_available_courier db courier_id = Raise DoesNotExist ->
  exists routes db' stops,
    create_optimized_routes_for_day env date db = (Ok routes, db') /\
    delivery_routes db' = (delivery_routes db ++ routes)%list /\
    (forall r, In r routes -> Courier.id (DeliveryRoute.courier r) <> courier_id) /\
    route_orders db' = (route_orders db ++ stops)%list /\
    (forall s o, In s stops -> In o group ->
                 Order.id (RouteOrder.order s) <> Order.id o) /\
    forall o, In o group ->
      In o (orders db) /\ In o (orders db') /\
      forall row, In row (orders db') -> Order.id row = Order.id o ->
        row = o /\
        Order.status row = Order.status o /\
        Order.courier row = Order.courier o /\
        Order.estimated_delivery_time row = Order.estimated_delivery_time o.
Proof.
  intros Hnd Hgroup Hskip.
  destruct (run_spec env date db Hnd)
    as (routes & db' & stops & Hrun & Hc & Hr & Hs & Hmap & _ & _ & Hmem & Hstops & Hrows).
  set (d := run_date env date) in *.
  set (pending := filter (is_pending d) (orders db)) in *.
  exists routes, db', stops.
  split; [exact Hrun|]. split; [exact Hr|].
  assert (Hmember : forall o, In o group ->
             In o (orders db) /\ is_pending d o = true /\
             order_key env db o = Some courier_id).
  { intros o Ho. destruct (Hmem courier_id group o Hgroup Ho) as (p & Hp & Hk & Hcase).
    assert (Hpc : Order.courier p <> None).
    { intros Hpc. destruct (order_key_resolves env db p courier_id Hpc Hk) as (c & Hc0).
      congruence. }
    destruct Hcase as [-> | [Hpc' _]]; [|contradiction].
    apply filter_In in Hp. destruct Hp as [Hin Hpend]. auto. }
  assert (Hrow : forall o r', In o group -> final_row env db d o r' -> r' = o).
  { intros o r' Ho [_ Hf]. destruct (Hmember o Ho) as (_ & Hp & Hk).
    rewrite Hp, Hk, Hskip in Hf. exact Hf. }
  split; [|split; [exact Hs|split]].
  - intros r Hin Hid.
    assert (Hrc : In (DeliveryRoute.courier r) (map DeliveryRoute.courier routes))
      by (apply in_map; exact Hin).
    rewrite Hmap in Hrc.
    destruct (resolved_couriers_In _ _ _ Hrc) as (k & os & _ & Hg).
    destruct (get_available_courier_ok _ _ _ Hg) as (_ & Hk & _).
    rewrite Hid in Hk. subst k. congruence.
  - intros s o Hs0 Ho Hid.
    destruct (Hstops s Hs0) as (p & k & c & Hp & Hk & Hg & Hidp).
    destruct (Hmember o Ho) as (Hin & _ & Hko).
    apply filter_In in Hp. destruct Hp as [Hpin _].
    assert (E : p = o)
      by (apply (NoDup_map_eq Order.id (orders db)); try assumption; congruence).
    subst p. congruence.
  - intros o Ho. destruct (Hmember o Ho) as (Hin & _ & _).
    split; [exact Hin|]. split.
    + destruct (Forall2_In_l _ _ _ o Hrows Hin) as (r' & Hr' & Hf).
      rewrite <- (Hrow o r' Ho Hf). exact Hr'.
    + intros row Hrow' Hid.
      destruct (Forall2_In_r _ _ _ row Hrows Hrow') as (r & Hrin & Hf).
      assert (E : r = o).
      { apply (NoDup_map_eq Order.id (orders db)); try assumption.
        destruct Hf as [Hfid _]. congruence. }
      subst r. rewrite (Hrow o row Ho Hf). repeat split.
Qed.

Lemma resolved_couriers_keys db grouped :
  resolved_couriers db grouped
  = flat_map (fun k => match get_available_courier db k with
                       | Ok c => [c]
                       | Raise _ => []
                       end) (map fst grouped).
Proof.
  induction grouped as [|[k os] rest IH]; [reflexivity|].
  cbn [resolved_couriers map fst flat_map]. rewrite IH.
  destruct (get_available_courier db k); reflexivity.
Qed.

Lemma assigned_fields env c o :
  Order.id (assigned env c o) = Order.id o /\
  Order.status (assigned env c o) = "assigned" /\
  Order.courier (assigned env c o) = Some c /\
  Order.created_at_date (assigned env c o) = Order.created_at_date o.
Proof. repeat split. Qed.

Lemma is_pending_assigned env c o d :
  Order.created_at_date o = d -> is_pending d (assigned env c o) = true.
Proof.
  intros H. unfold is_pending.
  destruct (assigned_fields env c o) as (_ & -> & _ & ->).
  rewrite H, Z.eqb_refl. reflexivity.
Qed.

Lemma is_pending_date d o : is_pending d o = true -> Order.created_at_date o = d.
Proof.
  unfold is_pending. intros H. apply andb_true_iff in H. destruct H as [_ H].
  apply Z.eqb_eq. exact H.
Qed.

(** After a run every row is pending exactly when it was, and a pending
    row has, in any later run over the same couriers, the key it had. *)
Lemma final_row_stable env env2 db db' d r r' :
  couriers db' = couriers db ->
  final_row env db d r r' ->
  is_pending d r' = is_pending d r /\
  (is_pending d r = true -> order_key env2 db' r' = order_key env db r).
Proof.
  intros Hc [Hid Hf].
  destruct (is_pending d r) eqn:Ep; [|subst r'; split; [exact Ep | discriminate]].
  destruct (order_key env db r) as [k|] eqn:Ek.
  - destruct (get_available_courier db k) as [c|e] eqn:Eg.
    + destruct Hf as (o & -> & Ho).
      assert (Hdate : Order.created_at_date o = d).
      { destruct Ho as [-> | (lat & lon & ->)]; apply is_pending_date; exact Ep. }
      split; [apply is_pending_assigned; exact Hdate|].
      intros _. unfold order_key at 1.
      destruct (assigned_fields env c o) as (_ & _ & -> & _).
      destruct (get_available_courier_ok _ _ _ Eg) as (_ & -> & _). reflexivity.
    + subst r'. split; [exact Ep|]. intros _.
      destruct (Order.courier r) as [c|] eqn:Erc.
      * unfold order_key in *. rewrite Erc in *. exact Ek.
      * destruct (order_key_resolves env db r k Erc Ek) as (c & Hc0). congruence.
  - subst r'. split; [exact Ep|]. intros _.
    unfold order_key in *. destruct (Order.courier r) as [c|]; [discriminate|].
    destruct (fst (fst (assign_optimal_courier env r db))) as [c|] eqn:Ea;
      [discriminate|].
    apply assign_optimal_courier_none in Ea.
    assert (Ea2 : fst (fst (assign_optimal_courier env2 r db')) = None)
      by (apply assign_optimal_courier_none; rewrite Hc; exact Ea).
    rewrite Ea2. reflexivity.
Qed.

Lemma final_row_ids env db d rows rows' :
  Forall2 (final_row env db d) rows rows' ->
  map Order.id rows' = map Order.id rows.
Proof.
  induction 1 as [|r r' rows rows' [Hid _] _ IH]; [reflexivity|].
  cbn [map]. rewrite Hid, IH. reflexivity.
Qed.

(** C3 (amended). Two runs on the same date with nothing changed in
    between: every order the first run put on a route is left with the
    status 'assigned', which keeps it pending for that date, and the second
    run creates a route again for each courier the first run created one
    for, so as many routes as the first. *)
Theorem second_run_routes_again env1 env2 date db :
  NoDup (map Order.id (orders db)) ->
  run_date env2 date = run_date env1 date ->
  exists routes1 db1 stops1 routes2 db2,
    create_optimized_routes_for_day env1 date db = (Ok routes1, db1) /\
    create_optimized_routes_for_day env2 date db1 = (Ok routes2, db2) /\
    route_orders db1 = (route_orders db ++ stops1)%list /\
    (forall s, In s stops1 ->
       exists row,
         In row (orders db1) /\
         Order.id row = Order.id (RouteOrder.order s) /\
         Order.status row = "assigned" /\
         is_pending (run_date env1 date) row = true) /\
    Permutation (map DeliveryRoute.courier routes2) (map DeliveryRoute.courier routes1) /\
    List.length routes2 = List.length routes1.
Proof.
  intros Hnd Hdate.
  destruct (run_spec env1 date db Hnd)
    as (routes1 & db1 & stops1 & Hrun1 & Hc1 & _ & Hs1 & Hmap1 & Hk1 & Hkeys1 & _
        & Hstops1 & Hrows1).
  assert (Hnd1 : NoDup (map Order.id (orders db1)))
    by (rewrite (final_row_ids _ _ _ _ _ Hrows1); exact Hnd).
  destruct (run_spec env2 date db1 Hnd1)
    as (routes2 & db2 & stops2 & Hrun2 & _ & _ & _ & Hmap2 & Hk2 & Hkeys2 & _).
  rewrite Hdate in *.
  set (d := run_date env1 date) in *.
  set (g1 := fst (_group_orders_for_routing env1 (filter (is_pending d) (orders db)) db))
    in *.
  set (g2 := fst (_group_orders_for_routing env2 (filter (is_pending d) (orders db1)) db1))
    in *.
  assert (Hstable : forall r r', final_row env1 db d r r' ->
             is_pending d r' = is_pending d r /\
             (is_pending d r = true -> order_key env2 db1 r' = order_key env1 db r))
    by (intros r r'; apply final_row_stable; exact Hc1).
  assert (Hsame : forall k, In k (map fst g2) <-> In k (map fst g1)).
  { intros k. rewrite Hkeys1, Hkeys2. split.
    - intros (p' & Hp' & Hk). apply filter_In in Hp'. destruct Hp' as [Hin' Hpend'].
      destruct (Forall2_In_r _ _ _ p' Hrows1 Hin') as (p & Hin & Hf).
      destruct (Hstable p p' Hf) as [Hpe Hke]. rewrite Hpend' in Hpe.
      exists p. split; [apply filter_In; split; [exact Hin | congruence]|].
      rewrite <- Hke by congruence. exact Hk.
    - intros (p & Hp & Hk). apply filter_In in Hp. destruct Hp as [Hin Hpend].
      destruct (Forall2_In_l _ _ _ p Hrows1 Hin) as (p' & Hin' & Hf).
      destruct (Hstable p p' Hf) as [Hpe Hke].
      exists p'. split; [apply filter_In; split; [exact Hin' | congruence]|].
      rewrite Hke by exact Hpend. exact Hk. }
  assert (Hperm : Permutation (map fst g2) (map fst g1))
    by (apply NoDup_Permutation; assumption).
  assert (Hcouriers : Permutation (map DeliveryRoute.courier routes2)
                                  (map DeliveryRoute.courier routes1)).
  { rewrite Hmap1, Hmap2, !resolved_couriers_keys.
    rewrite (flat_map_ext _ (fun k => match get_available_courier db k with
                                      | Ok c => [c]
                                      | Raise _ => []
                                      end)).
    - apply Permutation_flat_map. exact Hperm.
    - intros k. rewrite (get_available_courier_tables _ _ _ Hc1). reflexivity. }
  exists routes1, db1, stops1, routes2, db2.
  split; [exact Hrun1|]. split; [exact Hrun2|]. split; [exact Hs1|].
  split; [|split; [exact Hcouriers|]].
  - intros s Hs. destruct (Hstops1 s Hs) as (p & k & c & Hp & Hk & Hg & Hid).
    apply filter_In in Hp. destruct Hp as [Hin Hpend].
    destruct (Forall2_In_l _ _ _ p Hrows1 Hin) as (row & Hrow & Hf).
    exists row. split; [exact Hrow|].
    destruct (Hstable p row Hf) as [Hpe _].
    destruct Hf as [Hfid Hf]. rewrite Hpend, Hk, Hg in Hf.
    destruct Hf as (o & -> & _).
    split; [congruence|]. split; [reflexivity | congruence].
  - rewrite <- (length_map DeliveryRoute.courier routes2),
            <- (length_map DeliveryRoute.courier routes1).
    apply Permutation_length. exact Hcouriers.
Qed.

(** ** The geometry request *)

(** Reading a body the way the two route functions do, with the fallback on
    any exception, is reading the line out of it and falling back when there
    is none. *)
Lemma route_of_response_read key data waypoints :
  try_except (route_of_response key data waypoints) (fun _ => as_points waypoints)
  = match try_except
            (routes <- getitem data key ;;
             first <- getitem_int routes 0 ;;
             geometry <- getitem first "geometry" ;;
             type <- getitem geometry "type" ;;
             if is_str "LineString" type then
               coords <- getitem geometry "coordinates" ;;
               items <- json_iter coords ;;
               path <- swap_pairs items ;;
               Ok (Some path)
             else Ok None)
            (fun _ => None) with
    | Some path => path
    | None => as_points waypoints
    end.
Proof.
  unfold route_of_response.
  destruct data as [| | |s|items|members]; try reflexivity.
  - cbn [contains getitem bind]. destruct (index 0 key s); reflexivity.
  - cbn [contains getitem bind]. destruct (existsb (is_str key) items); reflexivity.
  - cbn [contains getitem bind].
    destruct (dict_get key members) as [routes|]; [|reflexivity].
    cbn [bind].
    destruct routes as [|b|q|s|items|ms]; cbn [json_truthy getitem_int bind try_except];
      try reflexivity.
    + destruct b; reflexivity.
    + destruct (float_truthy q); reflexivity.
    + destruct s as [|c s]; reflexivity.
    + destruct items as [|first items]; [reflexivity|]. cbn [nth_error bind].
      destruct (getitem first "geometry") as [geometry|]; [|reflexivity].
      cbn [bind].
      destruct (getitem geometry "type") as [type|]; [|reflexivity].
      cbn [bind].
      destruct (is_str "LineString" type); [|reflexivity].
      destruct (getitem geometry "coordinates") as [coords|]; [|reflexivity].
      cbn [bind].
      destruct (json_iter coords) as [positions|]; [|reflexivity].
      cbn [bind].
      destruct (swap_pairs positions); reflexivity.
    + destruct ms; reflexivity.
Qed.

(** The path of the geometry request is the reported line, or the input
    waypoints when the request raises or its body holds no line. *)
Lemma geometry_request_path_read env waypoints profile :
  geometry_request_path env waypoints profile
  = match fetch_json (route_request env waypoints profile) with
    | Ok data =>
        match reported_path env data with
        | Some path => path
        | None => as_points waypoints
        end
    | Raise _ => as_points waypoints
    end.
Proof.
  unfold geometry_request_path, route_request, reported_path.
  destruct (api_key_set env).
  - unfold _get_openroute_route. cbv zeta.
    destruct (fetch_json (openroute_route_response env profile (lon_lat waypoints)))
      as [data|e]; [|reflexivity].
    cbn [bind]. apply route_of_response_read.
  - unfold _get_osrm_route. cbv zeta.
    destruct (fetch_json (osrm_route_response env
                (_translate_profile_for_osrm profile) (lon_lat waypoints)))
      as [data|e]; [|reflexivity].
    cbn [bind]. apply route_of_response_read.
Qed.

Lemma get_route_coordinates_read env waypoints profile :
  get_route_coordinates env waypoints profile
  = if (List.length waypoints <? 2)%nat then as_points waypoints
    else if negb (EXTERNAL_ROUTING_ENABLED env) then as_points waypoints
    else geometry_request_path env waypoints profile.
Proof.
  unfold get_route_coordinates, geometry_request_path.
  destruct (List.length waypoints <? 2)%nat; [reflexivity|].
  destruct (EXTERNAL_ROUTING_ENABLED env); cbn [negb]; [|reflexivity].
  destruct (api_key_set env); reflexivity.
Qed.



(** X1. [get_route_coordinates] gives the input waypoints back, as they
    are, whenever there are fewer than two of them, routing is disabled,
    the request to the selected provider raises (no response, error status,
    undecodable body) or its body holds no ['LineString'] to read. *)
Theorem get_route_coordinates_degrades env waypoints profile :
  (List.length waypoints < 2)%nat \/
  EXTERNAL_ROUTING_ENABLED env = false \/
  (exists e, fetch_json (route_request env waypoints profile) = Raise e) \/
  (exists data,
      fetch_json (route_request env waypoints profile) = Ok data /\
      reported_path env data = None) ->
  get_route_coordinates env waypoints profile = as_points waypoints.
Proof.
  intros H. rewrite get_route_coordinates_read, geometry_request_path_read.
  destruct (Nat.ltb_spec (List.length waypoints) 2) as [Hlt|Hge]; [reflexivity|].
  destruct (EXTERNAL_ROUTING_ENABLED env); cbn [negb]; [|reflexivity].
  destruct H as [H | [H | [[e H] | [data [H Hp]]]]].
  - lia.
  - discriminate.
  - rewrite H. reflexivity.
  - rewrite H, Hp. reflexivity.
Qed.



(** ** Profiles *)

(** X4. The profile the secondary provider is asked for, from the vehicle
    type of a courier: ['cycling'] exactly for a bike or a bicycle,
    ['walking'] exactly on foot, ['driving'] for every other vehicle type,
    the unknown ones included. *)
Theorem vehicle_type_osrm_profile (vehicle_type : string) :
  let osrm_profile :=
    _translate_profile_for_osrm (lookup vehicle_type profile_map "driving-car") in
  (osrm_profile = "cycling" <-> vehicle_type = "bike" \/ vehicle_type = "bicycle") /\
  (osrm_profile = "walking" <-> vehicle_type = "foot") /\
  (osrm_profile = "driving" <->
   vehicle_type <> "bike" /\ vehicle_type <> "bicycle" /\ vehicle_type <> "foot").
Proof.
  unfold _translate_profile_for_osrm, profile_map. cbn [lookup].
  destruct (String.eqb_spec "car" vehicle_type) as [E1|N1];
    [subst; cbn; repeat split; intros; try discriminate;
     intuition discriminate|].
  destruct (String.eqb_spec "van" vehicle_type) as [E2|N2];
    [subst; cbn; repeat split; intros; try discriminate;
     intuition discriminate|].
  destruct (String.eqb_spec "motorcycle" vehicle_type) as [E3|N3];
    [subst; cbn; repeat split; intros; try discriminate;
     intuition discriminate|].
  destruct (String.eqb_spec "bike" vehicle_type) as [E4|N4];
    [subst; cbn; repeat split; intros; try discriminate;
     intuition (try discriminate; congruence)|].
  destruct (String.eqb_spec "bicycle" vehicle_type) as [E5|N5];
    [subst; cbn; repeat split; intros; try discriminate;
     intuition (try discriminate; congruence)|].
  destruct (String.eqb_spec "foot" vehicle_type) as [E6|N6];
    [subst; cbn; repeat split; intros; try discriminate;
     intuition (try discriminate; congruence)|].
  cbn. repeat split; intros; try discriminate;
    intuition (try discriminate; congruence).
Qed.

(** ** The straight-line fallback *)




(** ** More on the route optimizer *)


(** The waypoints the optimizer hands to the road router: the start
    location, then the locations of the entries in sequence order. *)
Lemma optimize_route_waypoints env courier first_order others :
  let orders_in := first_order :: others in
  map (location_at (build_locations courier orders_in)) (tour courier orders_in)
  = start_location courier
    :: map location (route (optimize_route env courier orders_in)).
Proof.
  intros orders_in.
  destruct (optimize_route_entries env courier first_order others) as (_ & _ & Hl).
  fold orders_in in Hl. rewrite Hl.
  destruct (tour_perm courier orders_in) as (picked & Ht & _).
  rewrite Ht. reflexivity.
Qed.

(** X6. What [optimize_route] returns for a non-empty list: every entry
    holds one of the given orders with the location resolved for it (its own
    coordinates, else its client's, else the start location, coordinate by
    coordinate); the metrics and the path are those of the road router on
    the start location followed by the entries' locations in sequence
    order, for the profile of the courier's vehicle; and the duration adds
    15 minutes of service per order. *)
Theorem optimize_route_result env courier orders_in :
  orders_in <> [] ->
  let r := optimize_route env courier orders_in in
  let stops := start_location courier :: map location (route r) in
  let s :=
    get_route_summary env stops
      (lookup (Courier.vehicle_type courier) profile_map "driving-car") in
  Forall (fun e =>
            In (order e) orders_in /\
            location e = order_location (start_location courier) (order e))
         (route r) /\
  total_distance r = distance s /\
  estimated_duration r
  = duration s + inject_Z (Z.of_nat (List.length orders_in)) * 15 /\
  route_coordinates r = Some (coordinates s).
Proof.
  intros Hne. destruct orders_in as [|first_order others]; [contradiction|].
  cbv zeta.
  rewrite <- (optimize_route_waypoints env courier first_order others).
  split; [|repeat split].
  set (orders_in := first_order :: others).
  destruct (tour_perm courier orders_in) as (picked & Ht & Hp).
  assert (Hr : route (optimize_route env courier orders_in)
               = map (fun entry =>
                        {| order := nth (snd entry - 1) orders_in first_order;
                           sequence := fst entry;
                           location :=
                             location_at (build_locations courier orders_in)
                               (snd entry) |})
                     (combine (seq 1 (List.length picked)) picked)).
  { unfold optimize_route. cbv beta iota zeta. cbn [route].
    fold orders_in. rewrite Ht. reflexivity. }
  rewrite Hr. apply Forall_forall. intros e He.
  apply in_map_iff in He. destruct He as ([k idx] & <- & Hin).
  cbn [order location fst snd].
  apply in_combine_r in Hin. apply (Permutation_in _ Hp) in Hin.
  apply in_seq in Hin.
  destruct idx as [|j]; [lia|].
  replace (S j - 1)%nat with j by lia.
  assert (Hj : (j < List.length orders_in)%nat) by lia.
  split.
  - apply nth_In. exact Hj.
  - apply location_at_order. apply nth_error_nth'. exact Hj.
Qed.



(** ** More on the delivery-time estimator *)

Lemma vehicle_speed_cases (vehicle_type : string) :
  lookup vehicle_type vehicle_speeds 25 = 15 \/
  lookup vehicle_type vehicle_speeds 25 = 35 \/
  lookup vehicle_type vehicle_speeds 25 = 40 \/
  lookup vehicle_type vehicle_speeds 25 = 25.
Proof.
  unfold vehicle_speeds. cbn [lookup].
  repeat match goal with
  | |- context [String.eqb ?a ?b] => destruct (String.eqb a b)
  end; auto.
Qed.

Lemma priority_factor_cases (priority : string) :
  lookup priority priority_factors 1.0 = 1.0 \/
  lookup priority priority_factors 1.0 = 0.8 \/
  lookup priority priority_factors 1.0 = 0.6.
Proof.
  unfold priority_factors. cbn [lookup].
  repeat match goal with
  | |- context [String.eqb ?a ?b] => destruct (String.eqb a b)
  end; auto.
Qed.

Lemma traffic_factor_cases lat lon hour day :
  _get_traffic_factor lat lon hour day = 1.5 \/
  _get_traffic_factor lat lon hour day = 1.2 \/
  _get_traffic_factor lat lon hour day = 1.0 \/
  _get_traffic_factor lat lon hour day = 1.3.
Proof.
  unfold _get_traffic_factor.
  repeat match goal with
  | |- context [if ?b then _ else _] => destruct b
  end; auto.
Qed.

Lemma delivery_distance_nonneg o c :
  math_sound math -> 0 <= delivery_distance o c.
Proof.
  intros Hm. unfold delivery_distance. cbv zeta.
  apply calculate_distance_nonneg. exact Hm.
Qed.

Lemma calculate_delivery_time_lower env o c :
  math_sound math -> 30 <= calculate_delivery_time env o (Some c).
Proof.
  intros Hm. rewrite calculate_delivery_time_unfold.
  pose proof (delivery_distance_nonneg o c Hm) as Hd.
  set (d := delivery_distance o c) in *. clearbody d.
  unfold base_preparation_time.
  destruct (vehicle_speed_cases (Courier.vehicle_type c)) as [-> | [-> | [-> | ->]]];
    destruct (priority_factor_cases (Order.priority o)) as [-> | [-> | ->]];
    match goal with
    | |- context [_get_traffic_factor ?a ?b ?h ?w] =>
        destruct (traffic_factor_cases a b h w) as [-> | [-> | [-> | ->]]]
    end;
    unfold Qdiv; cbn [Qinv Qnum Qden]; lra.
Qed.

(** X9. With sound [math] functions, the estimate for an order and a
    courier is never below the 30 minutes of preparation and never above 30
    minutes plus 6 minutes per kilometre (the slowest vehicle in the worst
    traffic); without any courier it is 90 minutes. *)
Theorem calculate_delivery_time_bounds env o c :
  math_sound math ->
  30 <= calculate_delivery_time env o (Some c) /\
  calculate_delivery_time env o (Some c) <= 30 + 6 * delivery_distance o c /\
  (Order.courier o = None -> calculate_delivery_time env o None = 90) /\
  (forall c', Order.courier o = Some c' ->
     calculate_delivery_time env o None = calculate_delivery_time env o (Some c')).
Proof.
  intros Hm. split; [exact (calculate_delivery_time_lower env o c Hm)|].
  rewrite calculate_delivery_time_unfold.
  pose proof (delivery_distance_nonneg o c Hm) as Hd.
  set (d := delivery_distance o c) in *. clearbody d.
  unfold base_preparation_time.
  split; [|split].
  - destruct (vehicle_speed_cases (Courier.vehicle_type c)) as [-> | [-> | [-> | ->]]];
    destruct (priority_factor_cases (Order.priority o)) as [-> | [-> | ->]];
    match goal with
    | |- context [_get_traffic_factor ?a ?b ?h ?w] =>
        destruct (traffic_factor_cases a b h w) as [-> | [-> | [-> | ->]]]
    end;
    unfold Qdiv; cbn [Qinv Qnum Qden]; lra.
  - intros Hc. unfold calculate_delivery_time. rewrite Hc. reflexivity.
  - intros c' Hc. unfold calculate_delivery_time. rewrite Hc. reflexivity.
Qed.

(** X10. A more urgent order is never estimated later: for the same order,
    courier and instant, the estimate with priority ['urgent'] is at most
    the one with ['high'], which is at most the one with ['normal'] or
    ['low']; every other priority text counts as ['normal']. *)
Theorem calculate_delivery_time_priority env o c :
  math_sound math ->
  let estimate priority :=
    calculate_delivery_time env (set_priority priority o) (Some c) in
  estimate "urgent" <= estimate "high" /\
  estimate "high" <= estimate "normal" /\
  estimate "low" = estimate "normal" /\
  forall priority,
    estimate "urgent" <= estimate priority /\
    estimate priority <= estimate "normal".
Proof.
  intros Hm. cbv beta zeta.
  assert (Hu : forall priority,
             calculate_delivery_time env (set_priority priority o) (Some c)
             = base_preparation_time +
               delivery_distance o c
               / lookup (Courier.vehicle_type c) vehicle_speeds 25 * 60 *
               _get_traffic_factor
                 (or_default (py_or (Order.latitude o) (Client.latitude (Order.client o)))
                    (or_default (Courier.current_latitude c) 50.4501))
                 (or_default (py_or (Order.longitude o) (Client.longitude (Order.client o)))
                    (or_default (Courier.current_longitude c) 30.5234))
                 (now_hour env) (now_weekday env) *
               lookup priority priority_factors 1.0)
    by reflexivity.
  rewrite !Hu.
  pose proof (delivery_distance_nonneg o c Hm) as Hd.
  set (d := delivery_distance o c) in *. clearbody d.
  unfold base_preparation_time.
  change (lookup "urgent" priority_factors 1.0) with 0.6.
  change (lookup "high" priority_factors 1.0) with 0.8.
  change (lookup "normal" priority_factors 1.0) with 1.0.
  change (lookup "low" priority_factors 1.0) with 1.0.
  split; [|split; [|split; [reflexivity|]]];
    [| |intros priority; rewrite (Hu priority); unfold base_preparation_time;
        destruct (priority_factor_cases priority) as [-> | [-> | ->]]];
    destruct (vehicle_speed_cases (Courier.vehicle_type c)) as [-> | [-> | [-> | ->]]];
    match goal with
    | |- context [_get_traffic_factor ?a ?b ?h ?w] =>
        destruct (traffic_factor_cases a b h w) as [-> | [-> | [-> | ->]]]
    end;
    unfold Qdiv; cbn [Qinv Qnum Qden]; lra.
Qed.


(** ** More on the choice of a courier *)


(** X12. [assign_optimal_courier] returns no courier exactly when no
    courier is available; a courier it returns is an available row of the
    courier table.  It assigns nothing itself: the order keeps its key, its
    courier and its status, and the courier, route and stop tables are as
    before; with no courier to return, nothing at all is changed. *)
Theorem assign_optimal_courier_returns env o db :
  let c := fst (fst (assign_optimal_courier env o db)) in
  let o' := snd (fst (assign_optimal_courier env o db)) in
  let db' := snd (assign_optimal_courier env o db) in
  (c = None <-> filter Courier.available (couriers db) = []) /\
  (forall x, c = Some x -> In x (couriers db) /\ Courier.available x = true) /\
  Order.id o' = Order.id o /\
  Order.courier o' = Order.courier o /\
  Order.status o' = Order.status o /\
  couriers db' = couriers db /\
  delivery_routes db' = delivery_routes db /\
  route_orders db' = route_orders db /\
  (c = None -> o' = o /\ db' = db).
Proof.
  cbv zeta. split; [apply assign_optimal_courier_none|].
  destruct (assign_optimal_courier env o db) as [[c o'] db'] eqn:E.
  cbn [fst snd].
  destruct (assign_optimal_courier_effect env o db c o' db' E) as [Heff Hav].
  split; [exact Hav|].
  destruct Heff as [[-> ->] | (lat & lon & -> & -> & Hc)].
  - repeat split; reflexivity.
  - repeat split; try reflexivity; contradiction.
Qed.



(** ** More on the grouping and the daily run *)

Lemma has_key_false env db p :
  has_key env db p = false
  <-> Order.courier p = None /\ filter Courier.available (couriers db) = [].
Proof.
  unfold has_key, order_key.
  destruct (Order.courier p) as [c|].
  - split; [discriminate | intros [H _]; discriminate].
  - pose proof (assign_optimal_courier_none env p db) as Hn.
    destruct (fst (fst (assign_optimal_courier env p db))) as [c|]; cbn [option_map].
    + split; [discriminate|]. intros [_ H]. apply Hn in H. discriminate.
    + split; [|reflexivity]. intros _. split; [reflexivity|]. apply Hn. reflexivity.
Qed.

(** X15. [_group_orders_for_routing] files every order once: the keys of
    the groups are distinct, no group is empty, every order of the group of
    a courier is one of the given orders whose courier (its own or, without
    one, the one chosen for it) has that key, and the groups together hold
    exactly the given orders that have such a courier.  An order is left
    out only when it has no courier and no courier is available.  Only the
    order table can change. *)
Theorem group_orders_for_routing_partition env pending db :
  let grouped := fst (_group_orders_for_routing env pending db) in
  let db' := snd (_group_orders_for_routing env pending db) in
  NoDup (map fst grouped) /\
  (forall k os, In (k, os) grouped -> os <> []) /\
  (forall k os o, In (k, os) grouped -> In o os -> filed_from env db pending k o) /\
  Permutation (map Order.id (all_grouped grouped))
    (map Order.id (filter (has_key env db) pending)) /\
  (forall p, has_key env db p = false
             <-> Order.courier p = None /\
                 filter Courier.available (couriers db) = []) /\
  couriers db' = couriers db /\
  delivery_routes db' = delivery_routes db /\
  route_orders db' = route_orders db.
Proof.
  cbv zeta. unfold _group_orders_for_routing.
  destruct (group_loop env pending [] db) as [grouped db'] eqn:E.
  destruct (group_loop_spec env pending [] db grouped db' E)
    as (Hc & Hr & Hs & _ & Hfiled & _ & _ & _ & Hnd & Hne & Hperm).
  cbn [fst snd].
  split; [apply Hnd; constructor|].
  split; [apply Hne; intros k os []|].
  split.
  { intros k os o Hin Ho.
    destruct (Hfiled k os o Hin Ho) as [(os0 & [] & _) | H]. exact H. }
  split; [exact Hperm|].
  split; [intros p; apply has_key_false|].
  repeat split; assumption.
Qed.





Lemma Forall2_eq_list {A : Type} (l l' : list A) :
  Forall2 (fun x y => y = x) l l' -> l' = l.
Proof. induction 1; [reflexivity | subst; reflexivity]. Qed.

(** X18. With no available courier a daily run is a no-operation, on
    tables whose orders have distinct keys: it returns no route and leaves
    every table as it is, also when orders of the date are assigned to
    (unavailable) couriers. *)
Theorem create_optimized_routes_no_courier env date db :
  NoDup (map Order.id (orders db)) ->
  filter Courier.available (couriers db) = [] ->
  create_optimized_routes_for_day env date db = (Ok [], db).
Proof.
  intros Hnd Hnone.
  assert (Hraise : forall k, exists e, get_available_courier db k = Raise e).
  { intros k. destruct (get_available_courier db k) as [c|e] eqn:E; [|eauto].
    destruct (get_available_courier_ok db k c E) as (Hin & _ & Hav).
    assert (H : In c (filter Courier.available (couriers db)))
      by (apply filter_In; split; assumption).
    rewrite Hnone in H. contradiction. }
  destruct (run_spec env date db Hnd)
    as (routes & db' & stops & Hrun & Hc & Hr & Hs & Hres & _ & _ & _ & Hstops & Hrows).
  rewrite Hrun.
  assert (Hroutes : routes = []).
  { destruct routes as [|r routes]; [reflexivity|].
    assert (Hin : In (DeliveryRoute.courier r)
                    (map DeliveryRoute.courier (r :: routes))) by (left; reflexivity).
    rewrite Hres in Hin.
    destruct (resolved_couriers_In _ _ _ Hin) as (k & os & _ & Hget).
    destruct (Hraise k) as (e & He). congruence. }
  assert (Hstops' : stops = []).
  { destruct stops as [|s stops]; [reflexivity|].
    destruct (Hstops s (or_introl eq_refl)) as (p & k & c & _ & _ & Hget & _).
    destruct (Hraise k) as (e & He). congruence. }
  assert (Horders : orders db' = orders db).
  { apply Forall2_eq_list. eapply Forall2_impl; [|exact Hrows].
    intros r r' _ [_ Hfinal].
    destruct (if is_pending (run_date env date) r then order_key env db r else None)
      as [k|]; [|exact Hfinal].
    destruct (Hraise k) as (e & He). rewrite He in Hfinal. exact Hfinal. }
  subst routes stops. rewrite app_nil_r in Hr, Hs.
  destruct db as [cs os rs ss], db' as [cs' os' rs' ss'].
  cbn [couriers orders delivery_routes route_orders] in *. congruence.
Qed.


(** ** The view [auto_assign_orders] *)

Lemma auto_assign_loop_cons env o rest n db c o1 db1 :
  assign_optimal_courier env o db = (Some c, o1, db1) ->
  auto_assign_loop env (o :: rest) n db
  = auto_assign_loop env rest (S n)
      (save_order (assigned env c o1) (save_order (assigned env c o1) db1)).
Proof. intros E. cbn [auto_assign_loop]. rewrite E. reflexivity. Qed.

Lemma auto_assign_loop_none env pending_orders n db :
  filter Courier.available (couriers db) = [] ->
  auto_assign_loop env pending_orders n db = (n, db).
Proof.
  intros Hnone. induction pending_orders as [|o rest IH]; [reflexivity|].
  cbn [auto_assign_loop]. unfold assign_optimal_courier. rewrite Hnone. exact IH.
Qed.

(** The rows after the loop: a row with the key of a pending order is that
    order (or its geocoded copy) assigned to an available courier, with its
    estimate; the others are as they were. *)
Lemma auto_assign_loop_spec env pending_orders :
  forall n db,
    filter Courier.available (couriers db) <> [] ->
    fst (auto_assign_loop env pending_orders n db)
    = (n + List.length pending_orders)%nat /\
    couriers (snd (auto_assign_loop env pending_orders n db)) = couriers db /\
    delivery_routes (snd (auto_assign_loop env pending_orders n db))
    = delivery_routes db /\
    route_orders (snd (auto_assign_loop env pending_orders n db)) = route_orders db /\
    Forall2 (fun r r' =>
               (r' = r /\ forall p, In p pending_orders -> Order.id p <> Order.id r) \/
               (exists p c o,
                   In p pending_orders /\ Order.id p = Order.id r /\
                   In c (couriers db) /\ Courier.available c = true /\
                   r' = assigned env c o /\
                   (o = p \/
                    exists lat lon, o = set_coordinates (Some lat) (Some lon) p)))
      (orders db) (orders (snd (auto_assign_loop env pending_orders n db))).
Proof.
  induction pending_orders as [|o rest IH]; intros n db Hav.
  - cbn [auto_assign_loop fst snd List.length]. split; [lia|]. repeat split.
    apply Forall2_refl. intros r. left. split; [reflexivity | intros p []].
  - destruct (assign_optimal_courier env o db) as [[oc o1] db1] eqn:E.
    destruct (assign_optimal_courier_effect env o db oc o1 db1 E) as [Heff Hrow].
    destruct oc as [c|].
    2:{ exfalso. apply Hav. apply (assign_optimal_courier_none env o db).
        rewrite E. reflexivity. }
    destruct (Hrow c eq_refl) as [Hcin Hcav].
    rewrite (auto_assign_loop_cons env o rest n db c o1 db1 E).
    set (a := assigned env c o1).
    assert (Ho1 : Order.id o1 = Order.id o /\
                  (o1 = o \/ exists lat lon, o1 = set_coordinates (Some lat) (Some lon) o)).
    { destruct Heff as [[-> _] | (lat & lon & -> & _)].
      - split; [reflexivity | left; reflexivity].
      - split; [reflexivity | right; exists lat, lon; reflexivity]. }
    destruct Ho1 as [Hid1 Hfrom].
    assert (Ha : Order.id a = Order.id o) by exact Hid1.
    assert (Hc1 : couriers db1 = couriers db /\
                  delivery_routes db1 = delivery_routes db /\
                  route_orders db1 = route_orders db).
    { destruct Heff as [[_ ->] | (lat & lon & _ & -> & _)]; repeat split. }
    destruct Hc1 as (Hc1 & Hr1 & Hs1).
    assert (Hrows1 : Forall2
                       (fun x y => (Order.id x <> Order.id o /\ y = x) \/
                                   (Order.id x = Order.id o /\ Order.id y = Order.id o))
                       (orders db) (orders db1)).
    { destruct Heff as [[_ ->] | (lat & lon & Ho & -> & _)].
      - apply Forall2_refl. intros x.
        destruct (Z.eq_dec (Order.id x) (Order.id o)); [right | left]; auto.
      - eapply Forall2_impl; [|apply (save_order_rows o1 db)].
        cbn beta. intros x y _ [[Hx ->] | [Hx ->]].
        + left. split; [congruence | reflexivity].
        + right. split; congruence. }
    assert (Hrows2 : Forall2
                       (fun y z => (Order.id y <> Order.id o /\ z = y) \/
                                   (Order.id y = Order.id o /\ z = a))
                       (orders db1) (orders (save_order a (save_order a db1)))).
    { eapply Forall2_compose;
        [|apply (save_order_rows a db1)|apply (save_order_rows a (save_order a db1))].
      cbn beta. intros x y z Hxy Hyz. rewrite Ha in *.
      destruct Hxy as [[Hx ->] | [Hx ->]], Hyz as [[Hy ->] | [Hy ->]]; auto;
        try congruence. }
    assert (Hstep : Forall2
                      (fun x z => (Order.id x <> Order.id o /\ z = x) \/
                                  (Order.id x = Order.id o /\ z = a))
                      (orders db) (orders (save_order a (save_order a db1)))).
    { eapply Forall2_compose; [|exact Hrows1|exact Hrows2].
      cbn beta. intros x y z Hxy Hyz.
      destruct Hxy as [[Hx ->] | [Hx Hy]], Hyz as [[Hy' ->] | [Hy' ->]]; auto;
        try congruence. }
    assert (Hav2 : filter Courier.available
                     (couriers (save_order a (save_order a db1))) <> [])
      by (cbn [save_order couriers]; rewrite Hc1; exact Hav).
    destruct (IH (S n) (save_order a (save_order a db1)) Hav2)
      as (Hn & Hc & Hr & Hs & Hrows).
    cbn [save_order couriers delivery_routes route_orders] in Hc, Hr, Hs.
    split; [rewrite Hn; cbn [List.length]; lia|].
    split; [rewrite Hc; exact Hc1|].
    split; [rewrite Hr; exact Hr1|].
    split; [rewrite Hs; exact Hs1|].
    eapply Forall2_compose; [|exact Hstep|exact Hrows].
    cbn beta. intros x y z Hxy Hyz.
    destruct Hyz as [[-> Hno] | (p & c2 & o2 & Hin & Hid & Hc2 & Hav2' & -> & Hfrom2)].
    + destruct Hxy as [[Hx ->] | [Hx ->]].
      * left. split; [reflexivity|].
        intros p [<- | Hin]; [congruence | apply Hno, Hin].
      * right. exists o, c, o1.
        split; [left; reflexivity|]. split; [congruence|].
        split; [exact Hcin|]. split; [exact Hcav|]. split; [reflexivity | exact Hfrom].
    + right. exists p, c2, o2.
      split; [right; exact Hin|]. split.
      * destruct Hxy as [[Hx ->] | [Hx ->]]; [exact Hid|].
        rewrite Hid. rewrite Ha. symmetry. exact Hx.
      * cbn [save_order couriers] in Hc2. rewrite Hc1 in Hc2.
        split; [exact Hc2|]. split; [exact Hav2'|]. split; [reflexivity | exact Hfrom2].
Qed.

(** The rows after the view, on tables whose orders have distinct keys. *)
Lemma auto_assign_orders_rows env db :
  NoDup (map Order.id (orders db)) ->
  filter Courier.available (couriers db) <> [] ->
  Forall2 (fun r r' =>
             Order.id r' = Order.id r /\
             (is_unassigned r = false -> r' = r) /\
             (is_unassigned r = true ->
              exists c o,
                In c (couriers db) /\ Courier.available c = true /\
                r' = assigned env c o /\
                (o = r \/
                 exists lat lon, o = set_coordinates (Some lat) (Some lon) r)))
    (orders db) (orders (snd (auto_assign_orders env db))).
Proof.
  intros Hnd Hav. unfold auto_assign_orders.
  destruct (auto_assign_loop_spec env (filter is_unassigned (orders db)) 0%nat db Hav)
    as (_ & _ & _ & _ & Hrows).
  eapply Forall2_impl; [|exact Hrows].
  cbn beta. intros r r' Hr [[-> Hno] | (p & c & o & Hin & Hid & Hc & Hcav & -> & Hfrom)].
  - split; [reflexivity|]. split; [reflexivity|].
    intros Hu. exfalso. apply (Hno r); [|reflexivity].
    apply filter_In. split; assumption.
  - apply filter_In in Hin. destruct Hin as [Hin Hu].
    assert (Hp : p = r) by exact (NoDup_map_eq Order.id _ _ _ Hnd Hin Hr Hid).
    subst p. split.
    + destruct Hfrom as [-> | (lat & lon & ->)]; reflexivity.
    + split; [intros Hf; congruence|].
      intros _. exists c, o. repeat split; assumption.
Qed.

(** X20. The view [auto_assign_orders], on tables whose orders have
    distinct keys.  With no available courier it assigns nothing and changes
    nothing.  With one, it counts every new order without courier, and each
    of them ends with status ['assigned'], an available courier and an
    estimated delivery time; every other order, and the courier, route and
    stop tables, are as before. *)
Theorem auto_assign_orders_effect env db :
  NoDup (map Order.id (orders db)) ->
  let assigned_count := fst (auto_assign_orders env db) in
  let db' := snd (auto_assign_orders env db) in
  (filter Courier.available (couriers db) = [] ->
   assigned_count = 0%nat /\ db' = db) /\
  (filter Courier.available (couriers db) <> [] ->
   assigned_count = List.length (filter is_unassigned (orders db)) /\
   couriers db' = couriers db /\
   delivery_routes db' = delivery_routes db /\
   route_orders db' = route_orders db /\
   Forall2 (fun r r' =>
              Order.id r' = Order.id r /\
              (is_unassigned r = false -> r' = r) /\
              (is_unassigned r = true ->
               Order.status r' = "assigned" /\
               (exists c, Order.courier r' = Some c /\ In c (couriers db) /\
                          Courier.available c = true) /\
               Order.estimated_delivery_time r' <> None))
     (orders db) (orders db')).
Proof.
  intros Hnd. cbv zeta. split.
  - intros Hnone. unfold auto_assign_orders.
    rewrite (auto_assign_loop_none env _ 0%nat db Hnone). split; reflexivity.
  - intros Hav.
    destruct (auto_assign_loop_spec env (filter is_unassigned (orders db)) 0%nat db Hav)
      as (Hn & Hc & Hr & Hs & _).
    split; [exact Hn|]. split; [exact Hc|]. split; [exact Hr|]. split; [exact Hs|].
    eapply Forall2_impl; [|exact (auto_assign_orders_rows env db Hnd Hav)].
    cbn beta. intros r r' _ (Hid & Hsame & Hnew).
    split; [exact Hid|]. split; [exact Hsame|].
    intros Hu. destruct (Hnew Hu) as (c & o & Hc' & Hcav & -> & _).
    split; [reflexivity|]. split; [|discriminate].
    exists c. repeat split; assumption.
Qed.

(** X21. The view [auto_assign_orders] is idempotent on tables whose
    orders have distinct keys: run again on the tables it left, at any later
    instant, it assigns nothing and changes nothing. *)
Theorem auto_assign_orders_twice env1 env2 db :
  NoDup (map Order.id (orders db)) ->
  auto_assign_orders env2 (snd (auto_assign_orders env1 db))
  = (0%nat, snd (auto_assign_orders env1 db)).
Proof.
  intros Hnd.
  destruct (filter Courier.available (couriers db)) as [|a rest] eqn:Ef.
  - assert (E1 : auto_assign_orders env1 db = (0%nat, db))
      by (unfold auto_assign_orders; apply auto_assign_loop_none; exact Ef).
    rewrite E1. cbn [snd].
    unfold auto_assign_orders. apply auto_assign_loop_none. exact Ef.
  - assert (Hav : filter Courier.available (couriers db) <> [])
      by (rewrite Ef; discriminate).
    pose proof (auto_assign_orders_rows env1 db Hnd Hav) as Hrows.
    set (db' := snd (auto_assign_orders env1 db)) in *.
    assert (Hnone : filter is_unassigned (orders db') = []).
    { assert (Hall : Forall (fun r' => is_unassigned r' = false) (orders db')).
      { apply Forall_forall. intros r' Hin'.
        destruct (Forall2_In_r _ _ _ r' Hrows Hin') as (r & _ & _ & Hsame & Hnew).
        destruct (is_unassigned r) eqn:Hu.
        - destruct (Hnew eq_refl) as (c & o & _ & _ & -> & _). reflexivity.
        - rewrite (Hsame eq_refl). exact Hu. }
      clear Hrows. induction Hall as [|r' l Hr' _ IHl]; [reflexivity|].
      cbn [filter]. rewrite Hr'. exact IHl. }
    unfold auto_assign_orders at 1. rewrite Hnone. reflexivity.
Qed.

(** ** The view [route_optimization] *)



(** ** The position tracker *)

Lemma find_tracked_some courier_id rows c :
  find (fun c => (Courier.id (TrackedCourier.row c) =? courier_id)%Z) rows = Some c ->
  In c rows /\ Courier.id (TrackedCourier.row c) = courier_id.
Proof.
  intros H. apply find_some in H. destruct H as [Hin Hid].
  split; [exact Hin | apply Z.eqb_eq; exact Hid].
Qed.



(** X25. After a successful [update_courier_location] at the instant
    [now], the courier's location is fresh ([Courier.is_location_fresh])
    exactly at the instants less than five minutes later; and, when both
    reported coordinates are non-zero, the courier passes the position test
    of the courier choice and the route optimizer starts the courier's tour
    at the reported position. *)
Theorem update_courier_location_fresh env courier_id latitude longitude
    accuracy speed bearing s :
  fst (update_courier_location env courier_id latitude longitude
         accuracy speed bearing s) = true ->
  forall c',
    In c' (tracked (snd (update_courier_location env courier_id latitude longitude
                           accuracy speed bearing s))) ->
    Courier.id (TrackedCourier.row c') = courier_id ->
    (forall t, is_location_fresh c' t = true <-> t - now env < 5) /\
    (float_truthy latitude = true -> float_truthy longitude = true ->
     has_position (TrackedCourier.row c') = true /\
     start_location (TrackedCourier.row c') = (latitude, longitude)).
Proof.
  unfold update_courier_location.
  destruct (find (fun c => (Courier.id (TrackedCourier.row c) =? courier_id)%Z)
              (tracked s)) as [c|] eqn:Ef; [|discriminate].
  destruct (find_tracked_some _ _ _ Ef) as [Hin Hid].
  cbn [fst snd tracked TrackedCourier.row set_position Courier.id].
  intros _ c' Hin' Hid'. apply in_map_iff in Hin'.
  destruct Hin' as (x & Hx & _).
  destruct (Z.eqb_spec (Courier.id (TrackedCourier.row x))
              (Courier.id (TrackedCourier.row c))) as [E|E].
  2:{ subst c'. congruence. }
  subst c'. split.
  - intros t. unfold is_location_fresh. cbn [TrackedCourier.last_location_update].
    rewrite negb_true_iff. split.
    + intros H. apply Qnot_le_lt. intros Hle.
      apply Qle_bool_iff in Hle. congruence.
    + intros H. destruct (Qle_bool 5 (t - now env)) eqn:Hb; [|reflexivity].
      apply Qle_bool_iff in Hb. exfalso. exact (Qlt_not_le _ _ H Hb).
  - intros T1 T2. unfold has_position, start_location.
    cbn [TrackedCourier.row set_position Courier.current_latitude
         Courier.current_longitude truthy or_default].
    rewrite T1, T2. split; reflexivity.
Qed.

(** ** The geocoder *)

(** X26. [GeoCoder.geocode_address] never raises and never returns half a
    position: its result is two floats or [(None, None)].  It is
    [(None, None)] when the request raises (no response, error status,
    undecodable body) and when the body is an empty list; and when the body
    is a list whose first hit has ['lat'] and ['lon'] that convert to
    floats, the result is those two floats, whatever else the body holds. *)
Theorem geocode_address_all_or_nothing (float : json -> result Q)
    (response : http_response) :
  let r := GeoCoder_geocode_address float response in
  ((exists latitude longitude, r = (Some latitude, Some longitude)) \/
   r = (None, None)) /\
  ((exists e, fetch_json response = Raise e) -> r = (None, None)) /\
  (fetch_json response = Ok (JArr []) -> r = (None, None)) /\
  (forall members others lat lon latitude longitude,
      fetch_json response = Ok (JArr (JObj members :: others)) ->
      dict_get "lat" members = Some lat -> dict_get "lon" members = Some lon ->
      float lat = Ok latitude -> float lon = Ok longitude ->
      r = (Some latitude, Some longitude)).
Proof.
  cbv zeta. unfold GeoCoder_geocode_address. split; [|split; [|split]].
  - destruct (fetch_json response) as [data|e]; [|right; reflexivity].
    cbn [bind]. destruct (json_truthy data); [|right; reflexivity].
    destruct (getitem_int data 0) as [first|]; [|right; reflexivity]. cbn [bind].
    destruct (getitem first "lat") as [lat|]; [|right; reflexivity]. cbn [bind].
    destruct (float lat) as [latitude|]; [|right; reflexivity]. cbn [bind].
    destruct (getitem first "lon") as [lon|]; [|right; reflexivity]. cbn [bind].
    destruct (float lon) as [longitude|]; [|right; reflexivity].
    left. exists latitude, longitude. reflexivity.
  - intros [e ->]. reflexivity.
  - intros ->. reflexivity.
  - intros members others lat lon latitude longitude -> Hlat Hlon Flat Flon.
    cbn [bind json_truthy getitem_int nth_error getitem].
    rewrite Hlat, Hlon. cbn [bind]. rewrite Flat. cbn [bind]. rewrite Flon.
    reflexivity.
Qed.

(** ** The location history *)









End Logistics.

(** ** The model on sample rows *)

Lemma flat_math_sound : math_sound flat_math.
Proof.
  split.
  - intros x. cbn. unfold sqrt_6. destruct (Qle_bool x 0); [discriminate|].
    unfold Qle. cbn. rewrite Z.mul_1_r. apply Z.sqrt_nonneg.
  - intros y x Hy _. exact Hy.
Qed.

(** The courier on the equator is the nearer to an order at latitude 1,
    longitude 30. *)
Lemma equator_courier_is_nearer :
  calculate_distance flat_math 0 30 1 30
  < calculate_distance flat_math 50.4501 30.5234 1 30.
Proof. vm_compute. reflexivity. Qed.

(** Two orders north of the courier, the second the nearer. *)
Lemma optimize_route_nearest_neighbor_witness :
  [order_at 1 50.48 30.5234 "normal"; order_at 2 50.46 30.5234 "normal"] <> [] /\
  exists picked,
    tour flat_math sample_courier
      [order_at 1 50.48 30.5234 "normal"; order_at 2 50.46 30.5234 "normal"]
    = (0%nat :: picked) /\
    Permutation picked (seq 1 2).
Proof.
  split; [discriminate|].
  destruct (optimize_route_nearest_neighbor flat_math offline_env sample_courier
              [order_at 1 50.48 30.5234 "normal"; order_at 2 50.46 30.5234 "normal"])
    as (picked & Ht & Hp & _); [discriminate|].
  exists picked. split; [exact Ht | exact Hp].
Defined.

(** On these two orders the tour visits the second order first. *)
Lemma tour_sample :
  tour flat_math sample_courier
    [order_at 1 50.48 30.5234 "normal"; order_at 2 50.46 30.5234 "normal"]
  = [0; 2; 1]%nat.
Proof. vm_compute. reflexivity. Qed.


(** A car, 10 km, Monday at 8 and an urgent order: 43.5 minutes. *)
Lemma calculate_delivery_time_formula_witness :
  Courier.vehicle_type sample_courier = "car" /\
  delivery_distance flat_math ten_km_order sample_courier == 10 /\
  (now_weekday offline_env < 5)%Z /\
  now_hour offline_env = 8%Z /\
  Order.priority ten_km_order = "urgent" /\
  calculate_delivery_time flat_math offline_env ten_km_order (Some sample_courier)
  == 43.5.
Proof.
  assert (Hd : delivery_distance flat_math ten_km_order sample_courier == 10)
    by (vm_compute; reflexivity).
  split; [reflexivity|]. split; [exact Hd|]. split; [reflexivity|].
  split; [reflexivity|]. split; [reflexivity|].
  destruct (calculate_delivery_time_formula flat_math) as (_ & _ & _ & _ & Hex).
  apply Hex; [reflexivity | exact Hd | reflexivity | reflexivity | reflexivity].
Defined.



(** A provider that reports a negative distance is passed through. *)
Lemma get_route_summary_negative_metrics :
  distance
    (get_route_summary flat_math
       {| EXTERNAL_ROUTING_ENABLED := true;
          OPENROUTE_API_KEY := None;
          openroute_summary_response := fun _ _ => ConnectionFailed;
          openroute_route_response := fun _ _ => ConnectionFailed;
          osrm_summary_response :=
            fun _ _ => Response true (Some (osrm_body (-1000) 60));
          osrm_route_response := fun _ _ => ConnectionFailed;
          geocode_address := fun _ => None;
          now := 0; now_hour := 8; now_weekday := 0; today := 0;
          now_stamp := "20240101_0800" |}
       two_waypoints "driving-car")
  < 0.
Proof. vm_compute. reflexivity. Qed.

(** C3 (as stated) fails. One courier, one new order: the first run
    creates a route and leaves the order 'assigned'; the second run, on the
    tables the first left, creates a second route. *)
Lemma second_run_routes_again_counterexample :
  exists r1 db1 r2 db2,
    create_optimized_routes_for_day flat_math offline_env (Some 0%Z) one_order_db
    = (Ok [r1], db1) /\
    map Order.status (orders db1) = ["assigned"] /\
    create_optimized_routes_for_day flat_math offline_env (Some 0%Z) db1
    = (Ok [r2], db2) /\
    List.length (delivery_routes db2) = 2%nat.
Proof.
  eexists _, _, _, _.
  split; [vm_compute; reflexivity|].
  split; [reflexivity|].
  split; [vm_compute; reflexivity|].
  reflexivity.
Qed.

(** The two runs on the sample tables create a route each. *)
Lemma second_run_routes_again_witness :
  NoDup (map Order.id (orders one_order_db)) /\
  run_date offline_env (Some 0%Z) = run_date offline_env (Some 0%Z) /\
  exists routes1 db1 routes2 db2,
    create_optimized_routes_for_day flat_math offline_env (Some 0%Z) one_order_db
    = (Ok routes1, db1) /\
    create_optimized_routes_for_day flat_math offline_env (Some 0%Z) db1
    = (Ok routes2, db2) /\
    List.length routes2 = List.length routes1.
Proof.
  assert (Hnd : NoDup (map Order.id (orders one_order_db)))
    by (repeat constructor; intros []).
  split; [exact Hnd|]. split; [reflexivity|].
  destruct (second_run_routes_again flat_math offline_env offline_env (Some 0%Z)
              one_order_db Hnd eq_refl)
    as (routes1 & db1 & stops1 & routes2 & db2 & H1 & H2 & _ & _ & _ & Hlen).
  exists routes1, db1, routes2, db2. split; [exact H1|]. split; [exact H2 | exact Hlen].
Defined.

(** The stale order stays as it is while the new order is routed. *)
Lemma skipped_group_untouched_witness :
  NoDup (map Order.id (orders stale_db)) /\
  In (3%Z, [stale_order])
     (fst (_group_orders_for_routing flat_math offline_env
             (filter (is_pending (run_date offline_env (Some 0%Z))) (orders stale_db))
             stale_db)) /\
  get_available_courier stale_db 3 = Raise DoesNotExist /\
  exists routes db',
    create_optimized_routes_for_day flat_math offline_env (Some 0%Z) stale_db
    = (Ok routes, db') /\
    In stale_order (orders db').
Proof.
  assert (Hnd : NoDup (map Order.id (orders stale_db))).
  { repeat constructor; cbn; intros H; repeat destruct H as [H | H];
      try discriminate; exact H. }
  assert (Hin : In (3%Z, [stale_order])
                  (fst (_group_orders_for_routing flat_math offline_env
                          (filter (is_pending (run_date offline_env (Some 0%Z)))
                                  (orders stale_db))
                          stale_db)))
    by (vm_compute; right; left; reflexivity).
  split; [exact Hnd|]. split; [exact Hin|]. split; [reflexivity|].
  destruct (skipped_group_untouched flat_math offline_env (Some 0%Z) stale_db 3
              [stale_order] Hnd Hin eq_refl)
    as (routes & db' & stops & Hrun & _ & _ & _ & _ & Hrows).
  exists routes, db'. split; [exact Hrun|].
  apply (Hrows stale_order). left. reflexivity.
Defined.

(** ** The further properties on sample rows *)

Lemma sample_orders_NoDup : NoDup (map Order.id (orders one_order_db)).
Proof. repeat constructor; intros []. Qed.



(** No provider answers: two waypoints come back as they are. *)
Lemma get_route_coordinates_degrades_witness :
  (exists e,
      fetch_json (route_request osrm_down_env two_waypoints "driving-car") = Raise e) /\
  get_route_coordinates osrm_down_env two_waypoints "driving-car"
  = as_points two_waypoints.
Proof.
  assert (H : exists e,
             fetch_json (route_request osrm_down_env two_waypoints "driving-car")
             = Raise e)
    by (exists RequestException; reflexivity).
  split; [exact H|].
  apply (get_route_coordinates_degrades osrm_down_env two_waypoints "driving-car").
  right. right. left. exact H.
Defined.



(** Two orders north of the courier: the metrics are those of the road
    router on the start followed by the entries' locations. *)
Lemma optimize_route_result_witness :
  [order_at 1 50.48 30.5234 "normal"; order_at 2 50.46 30.5234 "normal"] <> [] /\
  let r :=
    optimize_route flat_math offline_env sample_courier
      [order_at 1 50.48 30.5234 "normal"; order_at 2 50.46 30.5234 "normal"] in
  total_distance r
  = distance
      (get_route_summary flat_math offline_env
         (start_location sample_courier :: map location (route r))
         (lookup (Courier.vehicle_type sample_courier) profile_map "driving-car")).
Proof.
  split; [discriminate|].
  destruct (optimize_route_result flat_math offline_env sample_courier
              [order_at 1 50.48 30.5234 "normal"; order_at 2 50.46 30.5234 "normal"])
    as (_ & Hd & _); [discriminate|].
  exact Hd.
Defined.



Lemma calculate_delivery_time_bounds_witness :
  math_sound flat_math /\
  30 <= calculate_delivery_time flat_math offline_env ten_km_order (Some sample_courier) /\
  calculate_delivery_time flat_math offline_env ten_km_order (Some sample_courier)
  <= 30 + 6 * delivery_distance flat_math ten_km_order sample_courier.
Proof.
  split; [exact flat_math_sound|].
  destruct (calculate_delivery_time_bounds flat_math offline_env ten_km_order
              sample_courier flat_math_sound) as (Hlow & Hup & _).
  split; [exact Hlow | exact Hup].
Defined.

Lemma calculate_delivery_time_priority_witness :
  math_sound flat_math /\
  calculate_delivery_time flat_math offline_env
    (set_priority "urgent" ten_km_order) (Some sample_courier)
  <= calculate_delivery_time flat_math offline_env
       (set_priority "high" ten_km_order) (Some sample_courier).
Proof.
  split; [exact flat_math_sound|].
  exact (proj1 (calculate_delivery_time_priority flat_math offline_env ten_km_order
                  sample_courier flat_math_sound)).
Defined.






Lemma create_optimized_routes_no_courier_witness :
  NoDup (map Order.id (orders no_courier_db)) /\
  filter Courier.available (couriers no_courier_db) = [] /\
  create_optimized_routes_for_day flat_math offline_env (Some 0%Z) no_courier_db
  = (Ok [], no_courier_db).
Proof.
  assert (Hnd : NoDup (map Order.id (orders no_courier_db)))
    by (repeat constructor; intros []).
  split; [exact Hnd|]. split; [reflexivity|].
  exact (create_optimized_routes_no_courier flat_math offline_env (Some 0%Z)
           no_courier_db Hnd eq_refl).
Defined.


Lemma auto_assign_orders_effect_witness :
  NoDup (map Order.id (orders one_order_db)) /\
  filter Courier.available (couriers one_order_db) <> [] /\
  fst (auto_assign_orders flat_math offline_env one_order_db)
  = List.length (filter is_unassigned (orders one_order_db)).
Proof.
  assert (H : filter Courier.available (couriers one_order_db) <> [])
    by discriminate.
  split; [exact sample_orders_NoDup|]. split; [exact H|].
  destruct (proj2 (auto_assign_orders_effect flat_math offline_env one_order_db
                     sample_orders_NoDup) H) as (Hn & _).
  exact Hn.
Defined.

Lemma auto_assign_orders_twice_witness :
  NoDup (map Order.id (orders one_order_db)) /\
  auto_assign_orders flat_math offline_env
    (snd (auto_assign_orders flat_math offline_env one_order_db))
  = (0%nat, snd (auto_assign_orders flat_math offline_env one_order_db)).
Proof.
  split; [exact sample_orders_NoDup|].
  exact (auto_assign_orders_twice flat_math offline_env offline_env one_order_db
           sample_orders_NoDup).
Defined.


Lemma update_courier_location_fresh_witness :
  fst (update_courier_location offline_env 1 50.46 30.53 None None None sample_gps)
  = true /\
  start_location
    (set_position 50.46 30.53 sample_courier)
  = (50.46, 30.53).
Proof.
  split; [reflexivity|].
  exact (proj2 (proj2 (update_courier_location_fresh offline_env 1 50.46 30.53
                         None None None sample_gps eq_refl
                         {| TrackedCourier.row := set_position 50.46 30.53 sample_courier;
                            TrackedCourier.last_location_update := Some (now offline_env) |}
                         (or_introl eq_refl) eq_refl)
                  eq_refl eq_refl)).
Defined.

